(** * Mautic MCP server: OAuth2 token lifecycle, axios interceptors, list handlers

    A shallow embedding of [src/index.ts] (class [MauticServer]).

    - The private field [this.token] and the wall clock [Date.now()] live in
      an explicit [World] that every asynchronous method threads through.
    - The outside world (the OAuth2 token endpoint and the Mautic REST API)
      is an oracle [Env]: the reply to a network call depends on how many
      calls were made before it and on what is sent.
    - A rejected promise / thrown exception is the [Rejected] outcome.
    - JavaScript numbers are modelled by integers ([Z]), [NaN] by [None];
      [undefined] and [null] by [None]; the tests [if (x)] and [x || y] by
      JavaScript truthiness, under which the empty string counts as
      absent. [console.error] output is not modelled. *)

From stdpp Require Import gmap strings list pretty.

Local Open Scope Z_scope.

(** ** JavaScript values and coercions used by the source *)

Module Js.

(** Truthiness of an optional string: [undefined] and [""] are falsy. *)
Definition truthy (v : option string) : bool :=
  match v with
  | Some s => negb (String.eqb s "")
  | None => false
  end.

(** The value itself when it is truthy. *)
Definition usable (v : option string) : option string :=
  if truthy v then v else None.

(** [a || b] on optional strings. *)
Definition or (a b : option string) : option string :=
  if truthy a then a else b.

(** Truthiness of an optional number: [undefined], [NaN] and [0] are falsy. *)
Definition truthy_num (v : option Z) : bool :=
  match v with
  | Some n => negb (n =? 0)
  | None => false
  end.

(** Truthiness of an optional boolean. *)
Definition truthy_bool (v : option bool) : bool :=
  match v with
  | Some b => b
  | None => false
  end.

(** Interpolation [`${v}`] of an optional string. *)
Definition interp (v : option string) : string :=
  match v with
  | Some s => s
  | None => "undefined"
  end.

(** Interpolation [`${n}`] of an optional integer. *)
Definition interp_num (v : option Z) : string :=
  match v with
  | Some n => pretty n
  | None => "undefined"
  end.

End Js.

(** ** Data model *)

(** [interface OAuth2Token]. [access_token] is whatever
    [response.data.access_token] was; [expires_at] is [None] when the
    arithmetic produced [NaN]. *)
Record OAuth2Token := {
  access_token : option string;
  refresh_token : option string;
  expires_at : option Z;
  token_type : string;
}.

(** What the token endpoint answers with ([response.data]). A field is
    [None] when the body does not have it: a JSON object without that key,
    or text that is not JSON at all, which axios hands over as a string. *)
Record TokenData := {
  data_access_token : option string;
  data_refresh_token : option string;
  data_expires_in : option Z;
  data_token_type : option string;
}.

(** Values that end up in the query string. *)
Inductive Val :=
| VNum (n : Z)
| VStr (s : string)
| VBool (b : bool)
| VList (l : list string).

Inductive Method := GET | POST | PATCH | DELETE.

(** The axios request config, as far as the source touches it. *)
Record RequestConfig := {
  method : Method;
  url : string;
  params : gmap string Val;
  data : option string;
  Authorization : option string;
}.

Record Response := {
  status : Z;
  body : string;
}.

Inductive ErrorCode := InternalError | MethodNotFound | InvalidParams.

(** Everything the source throws or rejects with. For an [AxiosError],
    [response_status] is [error.response?.status] and [config] is
    [error.config]. *)
Inductive Error :=
| McpError (code : ErrorCode) (message : string)
| AxiosError (response_status : option Z) (config : option RequestConfig)
| TypeError.

Inductive Outcome (A : Type) :=
| Resolved (a : A)
| Rejected (e : Error).
Arguments Resolved {A} a.
Arguments Rejected {A} e.

(** The form body posted to [MAUTIC_TOKEN_ENDPOINT]; client id and secret
    are the same fixed configuration values in both grants. *)
Inductive Grant :=
| client_credentials
| refresh_token_grant (rt : string).

(** What goes over the network, oldest first. *)
Inductive Event :=
| TokenPost (g : Grant)
| ApiSend (cfg : RequestConfig).

Inductive HttpReply (B : Type) :=
| NetworkError
| Reply (status : Z) (payload : B).
Arguments NetworkError {B}.
Arguments Reply {B} status payload.

(** The outside world. The first argument of each oracle is the number of
    network calls made before this one. A token-endpoint payload of [None]
    is a body that parses to [null]. *)
Record Env := {
  token_endpoint : nat -> Grant -> HttpReply (option TokenData);
  api : nat -> RequestConfig -> HttpReply string;
  latency : nat -> N;
}.

(** [this.token], [Date.now()] in milliseconds, and the network log. *)
Record World := {
  token : option OAuth2Token;
  now : Z;
  trace : list Event;
}.

Definition set_token (t : option OAuth2Token) (w : World) : World :=
  {| token := t; now := now w; trace := trace w |}.

Definition set_Authorization (h : string) (c : RequestConfig) : RequestConfig :=
  {| method := method c; url := url c; params := params c; data := data c;
     Authorization := Some h |}.

(** axios' default [validateStatus]. *)
Definition validateStatus (s : Z) : bool := (200 <=? s) && (s <? 300).

(** [this.token?.refresh_token] *)
Definition this_refresh_token (w : World) : option string :=
  match token w with
  | Some t => refresh_token t
  | None => None
  end.

(** The McpError thrown by [getAccessToken]. *)
Definition AuthenticationFailure : Error :=
  McpError InternalError "Failed to authenticate with Mautic API".

(** ** Token lifecycle manager *)

Section Server.

Variable env : Env.

(** One network round trip: time passes, the call is logged. *)
Definition network (ev : Event) (w : World) : World :=
  {| token := token w;
     now := now w + Z.of_N (latency env (length (trace w)));
     trace := trace w ++ [ev] |}.

(** [axios.post(MAUTIC_TOKEN_ENDPOINT, grant, ...)]: rejects on a network
    error and on a status outside 2xx. Both callers catch the error and
    only log it, so its [config] is left out. *)
Definition axios_post (g : Grant) (w : World)
  : Outcome (option TokenData) * World :=
  let w' := network (TokenPost g) w in
  match token_endpoint env (length (trace w)) g with
  | NetworkError => (Rejected (AxiosError None None), w')
  | Reply s d =>
      if validateStatus s then (Resolved d, w')
      else (Rejected (AxiosError (Some s) None), w')
  end.

(** [Date.now() + (response.data.expires_in * 1000) - 60000] *)
Definition expiry (t : Z) (d : TokenData) : option Z :=
  match data_expires_in d with
  | Some e => Some (t + e * 1000 - 60000)
  | None => None
  end.

(** [response.data.token_type || 'Bearer'] *)
Definition token_type_of (d : TokenData) : string :=
  match Js.usable (data_token_type d) with
  | Some s => s
  | None => "Bearer"
  end.

(** [private async getAccessToken()] *)
Definition getAccessToken (w : World) : Outcome unit * World :=
  match axios_post client_credentials w with
  | (Resolved (Some d), w1) =>
      (Resolved tt,
       set_token (Some {| access_token := data_access_token d;
                          refresh_token := data_refresh_token d;
                          expires_at := expiry (now w1) d;
                          token_type := token_type_of d |}) w1)
  | (Resolved None, w1) => (Rejected AuthenticationFailure, w1)
  | (Rejected _, w1) => (Rejected AuthenticationFailure, w1)
  end.

(** [private async refreshToken()] *)
Definition refreshToken (w : World) : Outcome unit * World :=
  match Js.usable (this_refresh_token w) with
  | None => getAccessToken w
  | Some rt =>
      match axios_post (refresh_token_grant rt) w with
      | (Resolved (Some d), w1) =>
          (Resolved tt,
           set_token (Some {| access_token := data_access_token d;
                              refresh_token :=
                                Js.or (data_refresh_token d)
                                      (this_refresh_token w1);
                              expires_at := expiry (now w1) d;
                              token_type := token_type_of d |}) w1)
      | (Resolved None, w1) => getAccessToken w1
      | (Rejected _, w1) => getAccessToken w1
      end
  end.

(** [!this.token || Date.now() >= this.token.expires_at] *)
Definition missing_or_expired (w : World) : bool :=
  match token w with
  | None => true
  | Some t =>
      match expires_at t with
      | Some e => e <=? now w
      | None => false
      end
  end.

(** [private async ensureValidToken()] *)
Definition ensureValidToken (w : World) : Outcome unit * World :=
  if missing_or_expired w then
    if Js.truthy (this_refresh_token w) then refreshToken w
    else getAccessToken w
  else (Resolved tt, w).

(** ** Interceptors installed by [setupAxiosInterceptors] *)

(** [this.token?.access_token] *)
Definition this_access_token (w : World) : option string :=
  match token w with
  | Some t => access_token t
  | None => None
  end.

(** [`Bearer ${...}`] *)
Definition bearer (tok : option string) : string :=
  "Bearer " +:+ Js.interp tok.

(** The request interceptor. *)
Definition request_interceptor (config : RequestConfig) (w : World)
  : Outcome RequestConfig * World :=
  match ensureValidToken w with
  | (Resolved _, w1) =>
      match token w1 with
      | Some t =>
          (Resolved (set_Authorization (bearer (access_token t)) config), w1)
      | None => (Resolved config, w1)
      end
  | (Rejected e, w1) => (Rejected e, w1)
  end.

(** The transport: the request goes on the wire; axios rejects on a
    network error and on a status outside 2xx, keeping the config sent in
    [error.config]. The answer of [api] is the one the adapter hands back:
    redirects that the adapter follows on its own are not modelled, so the
    statements about a failing answer speak of a missing response and of
    4xx and 5xx statuses only. *)
Definition dispatchRequest (config : RequestConfig) (w : World)
  : Outcome Response * World :=
  let w' := network (ApiSend config) w in
  match api env (length (trace w)) config with
  | NetworkError => (Rejected (AxiosError None (Some config)), w')
  | Reply s b =>
      if validateStatus s then (Resolved {| status := s; body := b |}, w')
      else (Rejected (AxiosError (Some s) (Some config)), w')
  end.

(** [error.response?.status] and [error.config]; an [McpError] or a
    [TypeError] has neither property. *)
Definition error_status (e : Error) : option Z :=
  match e with
  | AxiosError s _ => s
  | McpError _ _ | TypeError => None
  end.

Definition error_config (e : Error) : option RequestConfig :=
  match e with
  | AxiosError _ c => c
  | McpError _ _ | TypeError => None
  end.

Definition is_401 (s : option Z) : bool :=
  match s with
  | Some n => n =? 401
  | None => false
  end.

(** The rejection handler of the response interceptor. [request] stands
    for [this.axiosInstance.request]. The replayed request is returned
    without [await], so its rejection is not caught by the [catch]. *)
Definition response_rejected
    (request : RequestConfig -> World -> option (Outcome Response * World))
    (error : Error) (w : World) : option (Outcome Response * World) :=
  if is_401 (error_status error) && Js.truthy (this_refresh_token w) then
    match refreshToken w with
    | (Resolved _, w1) =>
        match error_config error with
        | Some originalRequest =>
            request
              (set_Authorization (bearer (this_access_token w1))
                                 originalRequest) w1
        | None => Some (Rejected error, w1)
        end
    | (Rejected _, w1) => Some (Rejected error, w1)
    end
  else Some (Rejected error, w).

(** [this.axiosInstance.request(config)]: request interceptor, transport,
    response interceptor. A rejection of the request interceptor also
    reaches the rejection handler of the response interceptor. The
    recursion through the replay is bounded by [fuel]; [None] means the
    fuel ran out before the promise settled. *)
Fixpoint axiosInstance_request (fuel : nat) (config : RequestConfig)
    (w : World) : option (Outcome Response * World) :=
  match fuel with
  | O => None
  | S fuel' =>
      match request_interceptor config w with
      | (Resolved config1, w1) =>
          match dispatchRequest config1 w1 with
          | (Resolved r, w2) => Some (Resolved r, w2)
          | (Rejected e, w2) =>
              response_rejected (axiosInstance_request fuel') e w2
          end
      | (Rejected e, w1) =>
          response_rejected (axiosInstance_request fuel') e w1
      end
  end.

(** [this.axiosInstance.get(url, { params })] *)
Definition axiosInstance_get (fuel : nat) (u : string)
    (p : gmap string Val) (w : World) : option (Outcome Response * World) :=
  axiosInstance_request fuel
    {| method := GET; url := u; params := p; data := None;
       Authorization := None |} w.

End Server.

(** ** Tool handlers that read a [limit] argument

    The handlers build [params], call [this.axiosInstance.get] and format
    the response as text. The formatting is not modelled: a handler returns
    the outcome of its request. *)

(** [request.params.arguments], typed by the tools' input schemas. *)
Record Args := {
  search : option string;
  limit : option Z;
  start : option Z;
  orderBy : option string;
  orderByDir : option string;
  publishedOnly : option bool;
  minimal : option bool;
  formId : option Z;
  segmentId : option Z;
  contactId : option Z;
  dateFrom : option string;
  dateTo : option string;
  includeEvents : option (list string);
  excludeEvents : option (list string);
}.

(** [args?.f] *)
Definition opt {A} (args : option Args) (f : Args -> option A) : option A :=
  match args with
  | Some a => f a
  | None => None
  end.

(** [if (v) params.k = v;] for each type of argument. *)
Definition put_str (k : string) (v : option string) (p : gmap string Val)
  : gmap string Val :=
  match Js.usable v with
  | Some s => <[k := VStr s]> p
  | None => p
  end.

Definition put_num (k : string) (v : option Z) (p : gmap string Val)
  : gmap string Val :=
  match v with
  | Some n => if Js.truthy_num v then <[k := VNum n]> p else p
  | None => p
  end.

Definition put_bool (k : string) (v : option bool) (p : gmap string Val)
  : gmap string Val :=
  match v with
  | Some b => if Js.truthy_bool v then <[k := VBool b]> p else p
  | None => p
  end.

(** An array is truthy, also when it is empty. *)
Definition put_list (k : string) (v : option (list string))
    (p : gmap string Val) : gmap string Val :=
  match v with
  | Some l => <[k := VList l]> p
  | None => p
  end.

(** [if (limit) params.limit = Math.min(limit, 200);] *)
Definition put_limit (v : option Z) (p : gmap string Val) : gmap string Val :=
  match v with
  | Some n => if Js.truthy_num v then <["limit" := VNum (Z.min n 200)]> p else p
  | None => p
  end.

(** The tools of the dispatch [switch] that take a [limit]. *)
Inductive ListTool :=
| search_contacts
| list_campaigns
| list_emails
| list_forms
| get_form_submissions
| list_segments
| get_segment_contacts
| get_contact_activity.

(** Each handler up to and including its
    [await this.axiosInstance.get(...)]: the parameters it builds and the
    request it makes. The text that a handler then builds from the
    response is [formatted] below. *)
Section Handlers.

Variable env : Env.
Variable fuel : nat.

Definition searchContacts (args : option Args) (w : World) :=
  let params := ∅ in
  let params := put_str "search" (opt args search) params in
  let params := put_limit (opt args limit) params in
  let params := put_num "start" (opt args start) params in
  let params := put_str "orderBy" (opt args orderBy) params in
  let params := put_str "orderByDir" (opt args orderByDir) params in
  let params := put_bool "publishedOnly" (opt args publishedOnly) params in
  let params := put_bool "minimal" (opt args minimal) params in
  axiosInstance_get env fuel "/contacts" params w.

(** [listCampaigns], [listEmails], [listForms] and [listSegments] differ
    in the path only. *)
Definition list_with (path : string) (args : option Args) (w : World) :=
  let params := ∅ in
  let params := put_str "search" (opt args search) params in
  let params := put_limit (opt args limit) params in
  let params := put_num "start" (opt args start) params in
  let params := put_bool "publishedOnly" (opt args publishedOnly) params in
  axiosInstance_get env fuel path params w.

Definition listCampaigns := list_with "/campaigns".
Definition listEmails := list_with "/emails".
Definition listForms := list_with "/forms".
Definition listSegments := list_with "/segments".

(** The next three destructure [args]; that throws a [TypeError] when
    the arguments are [undefined]. *)
Definition getFormSubmissions (args : option Args) (w : World) :=
  match args with
  | None => Some (Rejected TypeError, w)
  | Some a =>
      let params := ∅ in
      let params := put_limit (limit a) params in
      let params := put_num "start" (start a) params in
      let params := put_str "dateFrom" (dateFrom a) params in
      let params := put_str "dateTo" (dateTo a) params in
      axiosInstance_get env fuel
        ("/forms/" +:+ Js.interp_num (formId a) +:+ "/submissions") params w
  end.

Definition getSegmentContacts (args : option Args) (w : World) :=
  match args with
  | None => Some (Rejected TypeError, w)
  | Some a =>
      let params := ∅ in
      let params := put_limit (limit a) params in
      let params := put_num "start" (start a) params in
      axiosInstance_get env fuel
        ("/segments/" +:+ Js.interp_num (segmentId a) +:+ "/contacts")
        params w
  end.

Definition getContactActivity (args : option Args) (w : World) :=
  match args with
  | None => Some (Rejected TypeError, w)
  | Some a =>
      let params := ∅ in
      let params := put_str "search" (search a) params in
      let params := put_list "includeEvents" (includeEvents a) params in
      let params := put_list "excludeEvents" (excludeEvents a) params in
      let params := put_str "dateFrom" (dateFrom a) params in
      let params := put_str "dateTo" (dateTo a) params in
      let params := put_limit (limit a) params in
      axiosInstance_get env fuel
        ("/contacts/" +:+ Js.interp_num (contactId a) +:+ "/activity")
        params w
  end.

(** The [switch (request.params.name)] of the call handler, restricted to
    these tools. *)
Definition call_tool (t : ListTool) :=
  match t with
  | search_contacts => searchContacts
  | list_campaigns => listCampaigns
  | list_emails => listEmails
  | list_forms => listForms
  | get_form_submissions => getFormSubmissions
  | list_segments => listSegments
  | get_segment_contacts => getSegmentContacts
  | get_contact_activity => getContactActivity
  end.

End Handlers.

(** The handlers that start with [const { ... } = args]. *)
Definition destructures (t : ListTool) : bool :=
  match t with
  | get_form_submissions | get_segment_contacts | get_contact_activity => true
  | search_contacts | list_campaigns | list_emails | list_forms
  | list_segments => false
  end.

(** ** Vocabulary for the statements *)

(** The token data of a reply that makes [axios.post] resolve with a
    non-null body; [None] for a network error, a status outside 2xx or a
    [null] body, the cases in which the [try] block throws. *)
Definition reply_data (r : HttpReply (option TokenData)) : option TokenData :=
  match r with
  | Reply s (Some d) => if validateStatus s then Some d else None
  | Reply _ None => None
  | NetworkError => None
  end.

(** What the token endpoint grants to the [n]-th network call. *)
Definition granted (env : Env) (n : nat) (g : Grant) : option TokenData :=
  reply_data (token_endpoint env n g).

(** The Credential stored from token data [d] received at instant [t];
    [keep] is the refresh token to fall back on. *)
Definition credential (t : Z) (d : TokenData) (keep : option string)
  : OAuth2Token :=
  {| access_token := data_access_token d;
     refresh_token := Js.or (data_refresh_token d) keep;
     expires_at := expiry t d;
     token_type := token_type_of d |}.

(** The requests put on the wire, and the grants posted, in a log. *)
Definition api_sends (l : list Event) : list RequestConfig :=
  omap (fun ev => match ev with ApiSend c => Some c | TokenPost _ => None end) l.

Definition token_posts (l : list Event) : list Grant :=
  omap (fun ev => match ev with TokenPost g => Some g | ApiSend _ => None end) l.

(** The stored Credential expires strictly after the current instant. *)
Definition valid_credential (w : World) : Prop :=
  exists t e, token w = Some t /\ expires_at t = Some e /\ now w < e.

(** The stored expiry, if there is a Credential, is a number. *)
Definition numeric_expiry (w : World) : Prop :=
  forall t, token w = Some t -> expires_at t <> None.

(** The header as the specification words it:
    [<tokenType> <accessToken>]. *)
Definition spec_Authorization (t : OAuth2Token) : string :=
  token_type t +:+ " " +:+ Js.interp (access_token t).

(** Time passing between two calls. *)
Definition tick (d : N) (w : World) : World :=
  {| token := token w; now := now w + Z.of_N d; trace := trace w |}.

(** A fresh server started at instant [t0]. *)
Definition init (t0 : Z) : World :=
  {| token := None; now := t0; trace := [] |}.

(** A sequence of calls to [ensureValidToken], [gaps] giving the time that
    passes before each. *)
Fixpoint ensure_sequence (env : Env) (gaps : list N) (w : World) : World :=
  match gaps with
  | [] => w
  | d :: gaps' => ensure_sequence env gaps' (ensureValidToken env (tick d w)).2
  end.

(** Every token the endpoint grants reports a lifetime above the 60 s
    safety margin. *)
Definition outlives_margin (env : Env) : Prop :=
  forall n g d,
    granted env n g = Some d ->
    exists e, data_expires_in d = Some e /\ 60 < e.

(** [c'] is the request [c] up to its [Authorization] header. *)
Definition same_request (c c' : RequestConfig) : Prop :=
  method c' = method c /\ url c' = url c /\ params c' = params c
  /\ data c' = data c.

(** The value the handlers put under ["limit"]. *)
Definition limit_param (v : option Z) : option Val :=
  match v with
  | Some n => if n =? 0 then None else Some (VNum (Z.min n 200))
  | None => None
  end.

(** ** Scenarios *)

Module Scenario.

Definition token_data (a : string) (r : option string) (e : Z)
    (ty : option string) : TokenData :=
  {| data_access_token := Some a; data_refresh_token := r;
     data_expires_in := Some e; data_token_type := ty |}.

(** A token endpoint that always answers 200 with [d], an API that
    answers with [a], 25 ms per round trip. *)
Definition env_of (d : option TokenData)
    (a : nat -> RequestConfig -> HttpReply string) : Env :=
  {| token_endpoint := fun _ _ => Reply 200 d;
     api := a;
     latency := fun _ => 25%N |}.

Definition api_ok : nat -> RequestConfig -> HttpReply string :=
  fun _ _ => Reply 200 "{}".

Definition api_401 : nat -> RequestConfig -> HttpReply string :=
  fun _ _ => Reply 401 "".

(** 401 for the first four network calls, 200 afterwards. *)
Definition api_401_twice : nat -> RequestConfig -> HttpReply string :=
  fun n _ => if (n <? 4)%nat then Reply 401 "" else Reply 200 "{}".

(** A token endpoint that is down. *)
Definition env_down : Env :=
  {| token_endpoint := fun _ _ => Reply 500 None;
     api := api_ok;
     latency := fun _ => 25%N |}.

(** The token endpoint is down and the API answers 401. *)
Definition env_revoked : Env :=
  {| token_endpoint := fun _ _ => Reply 500 None;
     api := api_401;
     latency := fun _ => 25%N |}.

(** Refresh fails, the client-credentials grant answers with [d]. *)
Definition env_refresh_broken (d : TokenData) : Env :=
  {| token_endpoint := fun _ g =>
       match g with
       | client_credentials => Reply 200 (Some d)
       | refresh_token_grant _ => Reply 400 None
       end;
     api := api_ok;
     latency := fun _ => 25%N |}.

Definition A1 : TokenData := token_data "A1" None 3600 (Some "Bearer").
Definition A2 : TokenData := token_data "A2" None 1800 None.
Definition A2_rotated : TokenData := token_data "A2" (Some "R2") 1800 None.
Definition short_lived : TokenData := token_data "A1" None 30 (Some "Bearer").
Definition mac_type : TokenData := token_data "A1" None 3600 (Some "MAC").
Definition A3 : TokenData := token_data "A3" None 3600 (Some "Bearer").

(** The body [{}]: a 200 answer without any of the token fields. *)
Definition empty_body : TokenData :=
  {| data_access_token := None; data_refresh_token := None;
     data_expires_in := None; data_token_type := None |}.

(** A stored Credential with refresh token ["R1"] expiring at [e]. *)
Definition with_R1 (e t : Z) : World :=
  {| token := Some {| access_token := Some "A0"; refresh_token := Some "R1";
                      expires_at := Some e; token_type := "Bearer" |};
     now := t; trace := [] |}.

(** A stored Credential without refresh token. *)
Definition without_refresh (e t : Z) : World :=
  {| token := Some {| access_token := Some "A0"; refresh_token := None;
                      expires_at := Some e; token_type := "Bearer" |};
     now := t; trace := [] |}.

Definition get_contacts : RequestConfig :=
  {| method := GET; url := "/contacts"; params := ∅; data := None;
     Authorization := None |}.

Definition args_limit (n : option Z) : Args :=
  {| search := None; limit := n; start := None; orderBy := None;
     orderByDir := None; publishedOnly := None; minimal := None;
     formId := Some 7; segmentId := Some 3; contactId := Some 42;
     dateFrom := None; dateTo := None; includeEvents := None;
     excludeEvents := None |}.

End Scenario.

(** ** The call handler's [try]/[catch] *)

(** Every list handler builds its text from [response.data.<key>]
    ([total], [contacts], [events], ...). Reading a key throws a TypeError
    when the body is the JSON value [null]; [data_is_null] tells of which
    bodies axios makes [null]. The text is not modelled further. *)
Definition formatted (data_is_null : string -> bool)
    (o : option (Outcome Response * World))
  : option (Outcome Response * World) :=
  match o with
  | Some (Resolved r, w') =>
      if data_is_null (body r) then Some (Rejected TypeError, w')
      else Some (Resolved r, w')
  | Some (Rejected e, w') => Some (Rejected e, w')
  | None => None
  end.

(** A list handler as a whole: the request, then the text. *)
Definition list_tool (data_is_null : string -> bool) (env : Env) (fuel : nat)
    (t : ListTool) (args : option Args) (w : World)
  : option (Outcome Response * World) :=
  formatted data_is_null (call_tool env fuel t args w).

(** The result object of a tool call: the text built from a response, or
    a text marked [isError: true]. *)
Inductive ToolResult :=
| Content (r : Response)
| ErrorContent (text : string).

Section CallTool.

(** The parts of an error that the model of [Error] does not carry:
    [error.response?.data?.errors?.[0]?.message ||
     error.response?.data?.error?.message || error.message] for an axios
    error, and [`${error}`]. *)
Variable message : Error -> string.
Variable to_string : Error -> string.

(** The [catch] block of the call handler; [AxiosError] is the only error
    for which [axios.isAxiosError] holds. *)
Definition call_tool_catch (error : Error) : Outcome ToolResult :=
  match error with
  | McpError _ _ => Rejected error
  | AxiosError _ _ =>
      Resolved (ErrorContent ("Mautic API Error: " +:+ message error))
  | TypeError =>
      Rejected (McpError InternalError
                  ("Unexpected error: " +:+ to_string error))
  end.

(** [try { return await handler(request.params.arguments) } catch ...];
    [handler] is a whole handler, text building included. *)
Definition CallToolRequest {A : Type}
    (handler : A -> World -> option (Outcome Response * World))
    (arguments : A) (w : World) : option (Outcome ToolResult * World) :=
  match handler arguments w with
  | Some (Resolved r, w') => Some (Resolved (Content r), w')
  | Some (Rejected e, w') => Some (call_tool_catch e, w')
  | None => None
  end.

End CallTool.



(** ** [getContact] *)

Module GetContact.

Record Args := {
  id : option Z;
  email : option string;
}.

(** What the handler returns: the contact of a detail response, or the
    text [No contact found with email: ...]. *)
Inductive Result :=
| Details (r : Response)
| NotFound (email : string).

Section Handler.

Variable env : Env.
Variable fuel : nat.

(** How the handler reads a response body: whether [response.data] is
    [null] (reading [data.total] or [data.contact] then throws a
    TypeError), whether [data.total === 0], and [Object.keys(data.contacts)],
    which throws a TypeError when [data.contacts] is [undefined] or
    [null]. *)
Variable data_is_null : string -> bool.
Variable total_is_zero : string -> bool.
Variable contact_keys : string -> option (list string).

(** [response = await this.axiosInstance.get(url)], then the text from
    [response.data.contact]. *)
Definition details (u : string) (w : World)
  : option (Outcome Result * World) :=
  match axiosInstance_get env fuel u ∅ w with
  | Some (Resolved r, w') =>
      if data_is_null (body r) then Some (Rejected TypeError, w')
      else Some (Resolved (Details r), w')
  | Some (Rejected e, w') => Some (Rejected e, w')
  | None => None
  end.

Definition getContact (args : option Args) (w : World)
  : option (Outcome Result * World) :=
  match args with
  | None => Some (Rejected TypeError, w)
  | Some a =>
      if Js.truthy_num (id a) then
        details ("/contacts/" +:+ Js.interp_num (id a)) w
      else
        match Js.usable (email a) with
        | Some em =>
            match axiosInstance_get env fuel "/contacts"
                    (<["limit" := VNum 1]>
                       (<["search" := VStr ("email:" +:+ em)]> ∅)) w with
            | Some (Resolved searchResponse, w1) =>
                if data_is_null (body searchResponse) then
                  Some (Rejected TypeError, w1)
                else if total_is_zero (body searchResponse) then
                  Some (Resolved (NotFound em), w1)
                else
                  match contact_keys (body searchResponse) with
                  | Some keys =>
                      details ("/contacts/" +:+ Js.interp (head keys)) w1
                  | None => Some (Rejected TypeError, w1)
                  end
            | Some (Rejected e, w1) => Some (Rejected e, w1)
            | None => None
            end
        | None =>
            Some (Rejected (McpError InvalidParams
                              "Either id or email must be provided"), w)
        end
  end.

End Handler.

End GetContact.

(** ** Handlers of the later version of [index.ts] *)

Module Later.

(** [request.params.arguments] of the list tools added there. *)
Record Args := {
  search : option string;
  limit : option Z;
  start : option Z;
  publishedOnly : option bool;
  bundle : option string;
  campaignId : option Z;
  contactId : option Z;
}.

Definition opt {A} (args : option Args) (f : Args -> option A) : option A :=
  match args with
  | Some a => f a
  | None => None
  end.

Inductive Tool :=
| get_campaign_contacts
| list_assets
| list_pages
| list_sms
| list_companies
| get_contact_notes
| list_tags
| list_categories
| list_stages
| list_contact_fields
| list_webhooks
| list_reports.

(** JSON values of a request body. *)
#[local] Set Warnings "-register-all".
Inductive Json :=
| JNull
| JNum (n : Z)
| JStr (s : string)
| JBool (b : bool)
| JArr (l : list Json)
| JObj (fields : list (string * Json)).

Definition json_truthy (j : Json) : bool :=
  match j with
  | JNull => false
  | JNum n => negb (n =? 0)
  | JStr s => negb (String.eqb s "")
  | JBool b => b
  | JArr _ | JObj _ => true
  end.

Record CampaignArgs := {
  name : option string;
  description : option string;
  isPublished : option bool;
  allowRestart : option bool;
  events : option (list Json);
  segments : option (list Z);
  forms : option (list Z);
  canvasSettings : option Json;
}.

Record AssetArgs := {
  title : option string;
  asset_description : option string;
  storageLocation : option string;
  file : option string;
  category : option Z;
  asset_isPublished : option bool;
}.

(** [payload.k = v]; a key whose value is [undefined] is not serialised. *)
Definition set_opt (k : string) (v : option Json) (p : gmap string Json)
  : gmap string Json :=
  match v with
  | Some j => <[k := j]> p
  | None => p
  end.

(** [ids.map((id: number) => ({ id }))] *)
Definition id_objects (ids : list Z) : list Json :=
  (fun i => JObj [("id", JNum i)]) <$> ids.

(** [if (v && v.length > 0) payload.k = f(v);] *)
Definition set_nonempty {A} (k : string) (f : list A -> list Json)
    (v : option (list A)) (p : gmap string Json) : gmap string Json :=
  match v with
  | Some (x :: l) => <[k := JArr (f (x :: l))]> p
  | Some [] | None => p
  end.

(** [args.isPublished !== undefined ? args.isPublished : true] *)
Definition published (v : option bool) : bool :=
  match v with
  | Some b => b
  | None => true
  end.

(** The [payload] of [createCampaignWithAutomation]. *)
Definition campaign_payload (args : CampaignArgs) : gmap string Json :=
  let payload := ∅ in
  let payload := set_opt "name" (JStr <$> name args) payload in
  let payload :=
    <["description" := JStr (default "" (Js.usable (description args)))]>
      payload in
  let payload := <["isPublished" := JBool (published (isPublished args))]>
                   payload in
  let payload :=
    <["allowRestart" := JBool (Js.truthy_bool (allowRestart args))]> payload in
  let payload := set_nonempty "events" (fun l => l) (events args) payload in
  let payload := set_nonempty "lists" id_objects (segments args) payload in
  let payload := set_nonempty "forms" id_objects (forms args) payload in
  match canvasSettings args with
  | Some j => if json_truthy j then <["canvasSettings" := j]> payload
              else payload
  | None => payload
  end.

(** The [payload] of [createAsset]. *)
Definition asset_payload (args : AssetArgs) : gmap string Json :=
  let payload := ∅ in
  let payload := set_opt "title" (JStr <$> title args) payload in
  let payload :=
    <["description" := JStr (default "" (Js.usable (asset_description args)))]>
      payload in
  let payload :=
    set_opt "storageLocation" (JStr <$> storageLocation args) payload in
  let payload :=
    <["isPublished" := JBool (published (asset_isPublished args))]> payload in
  let payload :=
    if bool_decide (storageLocation args = Some "local")
    then set_opt "tempName" (JStr <$> file args) payload
    else set_opt "remotePath" (JStr <$> file args) payload in
  match category args with
  | Some n => if Js.truthy_num (category args)
              then <["category" := JNum n]> payload else payload
  | None => payload
  end.

(** The list handlers are modelled up to and including their
    [await this.axiosInstance.get(...)]; the two creating handlers as a
    whole. *)
Section Handlers.

Variable env : Env.
Variable fuel : nat.

(** How axios serialises a request body. *)
Variable stringify : gmap string Json -> string.

(** [this.axiosInstance.post(url, payload)] *)
Definition axiosInstance_post (u : string) (payload : gmap string Json)
    (w : World) : option (Outcome Response * World) :=
  axiosInstance_request env fuel
    {| method := POST; url := u; params := ∅;
       data := Some (stringify payload); Authorization := None |} w.

(** Of which response bodies axios makes [null]: the text of both
    creating handlers reads a key of [response.data]. *)
Variable data_is_null : string -> bool.

(** Reading [args.name] throws a TypeError when the arguments are
    [undefined]; the text is built from [response.data.campaign]. *)
Definition createCampaignWithAutomation (args : option CampaignArgs)
    (w : World) :=
  match args with
  | None => Some (Rejected TypeError, w)
  | Some a =>
      formatted data_is_null
        (axiosInstance_post "/campaigns/new" (campaign_payload a) w)
  end.

(** The text is built from [response.data.asset]. *)
Definition createAsset (args : option AssetArgs) (w : World) :=
  match args with
  | None => Some (Rejected TypeError, w)
  | Some a =>
      formatted data_is_null
        (axiosInstance_post "/assets/new" (asset_payload a) w)
  end.

Definition getCampaignContacts (args : option Args) (w : World) :=
  match args with
  | None => Some (Rejected TypeError, w)
  | Some a =>
      let params := ∅ in
      let params := put_num "start" (start a) params in
      let params := put_limit (limit a) params in
      axiosInstance_get env fuel
        ("/campaigns/" +:+ Js.interp_num (campaignId a) +:+ "/contacts")
        params w
  end.

(** [listAssets] and [listPages] *)
Definition list_published (path : string) (args : option Args) (w : World) :=
  let params := ∅ in
  let params := put_str "search" (opt args search) params in
  let params := put_limit (opt args limit) params in
  let params := put_num "start" (opt args start) params in
  let params := put_bool "publishedOnly" (opt args publishedOnly) params in
  axiosInstance_get env fuel path params w.

Definition listAssets := list_published "/assets".
Definition listPages := list_published "/pages".

(** [listSms] and [listTags] *)
Definition list_search (path : string) (args : option Args) (w : World) :=
  let params := ∅ in
  let params := put_str "search" (opt args search) params in
  let params := put_limit (opt args limit) params in
  axiosInstance_get env fuel path params w.

Definition listSms := list_search "/smses".
Definition listTags := list_search "/tags".

Definition listCompanies (args : option Args) (w : World) :=
  let params := ∅ in
  let params := put_str "search" (opt args search) params in
  let params := put_limit (opt args limit) params in
  let params := put_num "start" (opt args start) params in
  axiosInstance_get env fuel "/companies" params w.

Definition getContactNotes (args : option Args) (w : World) :=
  match args with
  | None => Some (Rejected TypeError, w)
  | Some a =>
      let params := ∅ in
      let params := put_limit (limit a) params in
      axiosInstance_get env fuel
        ("/contacts/" +:+ Js.interp_num (contactId a) +:+ "/notes") params w
  end.

Definition listCategories (args : option Args) (w : World) :=
  let params := ∅ in
  let params := put_str "bundle" (opt args bundle) params in
  let params := put_limit (opt args limit) params in
  axiosInstance_get env fuel "/categories" params w.

(** [listStages], [listContactFields], [listWebhooks], [listReports] *)
Definition list_limit (path : string) (args : option Args) (w : World) :=
  let params := ∅ in
  let params := put_limit (opt args limit) params in
  axiosInstance_get env fuel path params w.

Definition listStages := list_limit "/stages".
Definition listContactFields := list_limit "/fields/contact".
Definition listWebhooks := list_limit "/hooks".
Definition listReports := list_limit "/reports".

Definition call_tool (t : Tool) :=
  match t with
  | get_campaign_contacts => getCampaignContacts
  | list_assets => listAssets
  | list_pages => listPages
  | list_sms => listSms
  | list_companies => listCompanies
  | get_contact_notes => getContactNotes
  | list_tags => listTags
  | list_categories => listCategories
  | list_stages => listStages
  | list_contact_fields => listContactFields
  | list_webhooks => listWebhooks
  | list_reports => listReports
  end.

End Handlers.

(** The list handlers that start with [const { ... } = args]. *)
Definition destructures (t : Tool) : bool :=
  match t with
  | get_campaign_contacts | get_contact_notes => true
  | list_assets | list_pages | list_sms | list_companies | list_tags
  | list_categories | list_stages | list_contact_fields | list_webhooks
  | list_reports => false
  end.

End Later.

(** ** Further scenarios *)

Module Cases.

(** 401 for the first network call, 200 afterwards. *)
Definition api_401_once : nat -> RequestConfig -> HttpReply string :=
  fun n _ => if (n <? 1)%nat then Reply 401 "" else Reply 200 "{}".

Definition api_500 : nat -> RequestConfig -> HttpReply string :=
  fun _ _ => Reply 500 "".

(** A token body without [expires_in]. *)
Definition no_expiry : TokenData :=
  {| data_access_token := Some "A1"; data_refresh_token := None;
     data_expires_in := None; data_token_type := None |}.

(** A request that already carries an [Authorization] header. *)
Definition post_contact : RequestConfig :=
  {| method := POST; url := "/contacts/new"; params := ∅;
     data := Some "{}"; Authorization := Some "Basic abc" |}.

Definition later_args (n : option Z) : Later.Args :=
  {| Later.search := Some "acme"; Later.limit := n; Later.start := Some 0;
     Later.publishedOnly := Some false; Later.bundle := None;
     Later.campaignId := Some 9; Later.contactId := Some 42 |}.

Definition campaign : Later.CampaignArgs :=
  {| Later.name := Some "Welcome"; Later.description := None;
     Later.isPublished := Some false; Later.allowRestart := None;
     Later.events := Some []; Later.segments := Some [3; 8];
     Later.forms := None; Later.canvasSettings := None |}.

Definition asset : Later.AssetArgs :=
  {| Later.title := Some "Logo"; Later.asset_description := None;
     Later.storageLocation := Some "remote";
     Later.file := Some "https://example.org/logo.png";
     Later.category := None; Later.asset_isPublished := None |}.

(** A rendering of a request body that shows the ids under [lists] and
    the text under [remotePath]. *)
Definition show (p : gmap string Later.Json) : string :=
  match p !! "lists", p !! "remotePath" with
  | Some (Later.JArr l), _ =>
      "lists:" +:+
      String.concat ","
        (omap (fun j => match j with
                        | Later.JObj [(_, Later.JNum n)] => Some (pretty n)
                        | _ => None
                        end) l)
  | _, Some (Later.JStr f) => "remotePath:" +:+ f
  | _, _ => ""
  end.

Definition by_email : GetContact.Args :=
  {| GetContact.id := Some 0; GetContact.email := Some "a@b.c" |}.

(** A body for the search and one for contact 17. *)
Definition api_contacts : nat -> RequestConfig -> HttpReply string :=
  fun _ c =>
    if String.eqb (url c) "/contacts" then Reply 200 "search"
    else if String.eqb (url c) "/contacts/17" then Reply 200 "contact"
    else Reply 404 "".

End Cases.

(** ** The token lifecycle manager, case by case *)

Section Lifecycle.

Variable env : Env.

Lemma trace_network ev w : trace (network env ev w) = trace w ++ [ev].
Proof. reflexivity. Qed.

Lemma token_network ev w : token (network env ev w) = token w.
Proof. reflexivity. Qed.

Lemma refresh_token_network ev w :
  this_refresh_token (network env ev w) = this_refresh_token w.
Proof. reflexivity. Qed.

Lemma usable_eq v s : Js.usable v = Some s -> v = Some s.
Proof. unfold Js.usable. destruct (Js.truthy v); [done | discriminate]. Qed.

Lemma usable_None v : Js.usable v = None <-> Js.truthy v = false.
Proof.
  unfold Js.usable. destruct (Js.truthy v) eqn:E; split; try done.
  destruct v; [discriminate | done].
Qed.

Lemma truthy_nonempty s : s <> "" -> Js.truthy (Some s) = true.
Proof.
  intros Hs. simpl. destruct (String.eqb_spec s ""); [contradiction | done].
Qed.

(** [axios.post] resolves with a body exactly when something is granted. *)
Lemma axios_post_granted g w d :
  granted env (length (trace w)) g = Some d ->
  axios_post env g w = (Resolved (Some d), network env (TokenPost g) w).
Proof.
  unfold granted, reply_data, axios_post.
  destruct (token_endpoint env (length (trace w)) g) as [|s [d'|]]; try done.
  destruct (validateStatus s); [|done]. by intros [= ->].
Qed.

Lemma axios_post_refused g w :
  granted env (length (trace w)) g = None ->
  (exists e, axios_post env g w = (Rejected e, network env (TokenPost g) w))
  \/ axios_post env g w = (Resolved None, network env (TokenPost g) w).
Proof.
  unfold granted, reply_data, axios_post.
  destruct (token_endpoint env (length (trace w)) g) as [|s [d'|]].
  - intros _. left. eauto.
  - destruct (validateStatus s); [done|]. intros _. left. eauto.
  - intros _. destruct (validateStatus s); [by right | left; eauto].
Qed.

Lemma getAccessToken_granted w d :
  granted env (length (trace w)) client_credentials = Some d ->
  let w1 := network env (TokenPost client_credentials) w in
  getAccessToken env w =
    (Resolved tt,
     set_token (Some {| access_token := data_access_token d;
                        refresh_token := data_refresh_token d;
                        expires_at := expiry (now w1) d;
                        token_type := token_type_of d |}) w1).
Proof.
  intros H. unfold getAccessToken. by rewrite (axios_post_granted _ _ _ H).
Qed.

Lemma getAccessToken_refused w :
  granted env (length (trace w)) client_credentials = None ->
  getAccessToken env w =
    (Rejected AuthenticationFailure,
     network env (TokenPost client_credentials) w).
Proof.
  intros H. unfold getAccessToken.
  destruct (axios_post_refused _ _ H) as [[e ->] | ->]; done.
Qed.

Lemma refreshToken_without w :
  Js.truthy (this_refresh_token w) = false ->
  refreshToken env w = getAccessToken env w.
Proof.
  intros H. unfold refreshToken.
  by rewrite (proj2 (usable_None _) H).
Qed.

Lemma refreshToken_granted w rt d :
  Js.usable (this_refresh_token w) = Some rt ->
  granted env (length (trace w)) (refresh_token_grant rt) = Some d ->
  let w1 := network env (TokenPost (refresh_token_grant rt)) w in
  refreshToken env w =
    (Resolved tt, set_token (Some (credential (now w1) d (Some rt))) w1).
Proof.
  intros Hu H. unfold refreshToken. rewrite Hu.
  rewrite (axios_post_granted _ _ _ H). rewrite refresh_token_network.
  by rewrite (usable_eq _ _ Hu).
Qed.

Lemma refreshToken_refused w rt :
  Js.usable (this_refresh_token w) = Some rt ->
  granted env (length (trace w)) (refresh_token_grant rt) = None ->
  refreshToken env w =
    getAccessToken env (network env (TokenPost (refresh_token_grant rt)) w).
Proof.
  intros Hu H. unfold refreshToken. rewrite Hu.
  destruct (axios_post_refused _ _ H) as [[e ->] | ->]; done.
Qed.

(** Whatever [getAccessToken] does, it posts one client-credentials
    grant, and it leaves the Credential alone when it throws. *)
Lemma getAccessToken_outcome w r w' :
  getAccessToken env w = (r, w') ->
  trace w' = trace w ++ [TokenPost client_credentials]
  /\ ((r = Resolved tt
       /\ exists d, granted env (length (trace w)) client_credentials = Some d)
      \/ (r = Rejected AuthenticationFailure
          /\ granted env (length (trace w)) client_credentials = None
          /\ token w' = token w)).
Proof.
  destruct (granted env (length (trace w)) client_credentials) as [d|] eqn:G.
  - rewrite (getAccessToken_granted _ _ G). intros [= <- <-].
    split; [done|]. left. eauto.
  - rewrite (getAccessToken_refused _ G). intros [= <- <-].
    split; [done|]. by right.
Qed.

End Lifecycle.

(** The four ways through [ensureValidToken]. *)
Lemma ensureValidToken_cases (env : Env) (w : World) r w' :
  ensureValidToken env w = (r, w') ->
  (missing_or_expired w = false /\ r = Resolved tt /\ w' = w)
  \/ (missing_or_expired w = true
      /\ Js.truthy (this_refresh_token w) = false
      /\ getAccessToken env w = (r, w'))
  \/ (missing_or_expired w = true
      /\ exists rt d,
          Js.usable (this_refresh_token w) = Some rt
          /\ granted env (length (trace w)) (refresh_token_grant rt) = Some d
          /\ r = Resolved tt
          /\ w' = let w1 := network env (TokenPost (refresh_token_grant rt)) w in
                  set_token (Some (credential (now w1) d (Some rt))) w1)
  \/ (missing_or_expired w = true
      /\ exists rt,
          Js.usable (this_refresh_token w) = Some rt
          /\ granted env (length (trace w)) (refresh_token_grant rt) = None
          /\ getAccessToken env
               (network env (TokenPost (refresh_token_grant rt)) w) = (r, w')).
Proof.
  unfold ensureValidToken.
  destruct (missing_or_expired w) eqn:M.
  - destruct (Js.truthy (this_refresh_token w)) eqn:T.
    + assert (exists rt, Js.usable (this_refresh_token w) = Some rt) as [rt Hu].
      { unfold Js.usable. rewrite T.
        destruct (this_refresh_token w); [eauto | discriminate]. }
      destruct (granted env (length (trace w)) (refresh_token_grant rt))
        as [d|] eqn:G.
      * rewrite (refreshToken_granted _ _ _ _ Hu G). intros [= <- <-].
        right. right. left. split; [done|]. exists rt, d. done.
      * rewrite (refreshToken_refused _ _ _ Hu G). intros H.
        right. right. right. split; [done|]. exists rt. done.
    + intros H. right. left. done.
  - intros [= <- <-]. by left.
Qed.

(** A throwing [ensureValidToken] throws the authentication failure of a
    refused client-credentials grant and keeps the Credential. *)
Lemma ensureValidToken_rejected (env : Env) (w : World) e w' :
  ensureValidToken env w = (Rejected e, w') ->
  e = AuthenticationFailure
  /\ token w' = token w
  /\ api_sends (trace w') = api_sends (trace w)
  /\ last (trace w') = Some (TokenPost client_credentials)
  /\ granted env (Nat.pred (length (trace w'))) client_credentials = None.
Proof.
  intros H.
  destruct (ensureValidToken_cases _ _ _ _ H)
    as [(_ & ? & _) | [(_ & _ & G) | [(_ & rt & d & _ & _ & ? & _)
                     | (_ & rt & _ & _ & G)]]];
    try discriminate.
  - destruct (getAccessToken_outcome _ _ _ _ G)
      as (Ht & [(? & _) | (He & Hg & Hk)]); [discriminate|].
    injection He as <-. rewrite Ht. unfold api_sends.
    rewrite omap_app, last_snoc, length_app. simpl.
    rewrite app_nil_r, Nat.add_1_r. done.
  - destruct (getAccessToken_outcome _ _ _ _ G)
      as (Ht & [(? & _) | (He & Hg & Hk)]); [discriminate|].
    injection He as <-. rewrite Ht, Hk, trace_network. unfold api_sends.
    rewrite !omap_app, last_snoc, !length_app. simpl.
    rewrite !app_nil_r, !Nat.add_1_r. rewrite trace_network in Hg.
    rewrite length_app, Nat.add_1_r in Hg. done.
Qed.

(** A returning [ensureValidToken] leaves a Credential behind. *)
Lemma ensureValidToken_resolved (env : Env) (w : World) u w' :
  ensureValidToken env w = (Resolved u, w') ->
  api_sends (trace w') = api_sends (trace w)
  /\ exists t, token w' = Some t.
Proof.
  intros H.
  destruct (ensureValidToken_cases _ _ _ _ H)
    as [(M & _ & ->) | [(_ & _ & G) | [(_ & rt & d & _ & _ & _ & ->)
                     | (_ & rt & _ & _ & G)]]].
  - split; [done|]. unfold missing_or_expired in M.
    destruct (token w); [eauto | discriminate].
  - destruct (getAccessToken_outcome _ _ _ _ G)
      as (Ht & [(_ & d & Hd) | (? & _)]); [|discriminate].
    rewrite (getAccessToken_granted _ _ _ Hd) in G. injection G as _ <-.
    split; [|simpl; eauto]. simpl. unfold api_sends.
    rewrite omap_app. simpl. by rewrite app_nil_r.
  - split; [|simpl; eauto]. simpl. unfold api_sends.
    rewrite omap_app. simpl. by rewrite app_nil_r.
  - destruct (getAccessToken_outcome _ _ _ _ G)
      as (Ht & [(_ & d & Hd) | (? & _)]); [|discriminate].
    rewrite (getAccessToken_granted _ _ _ Hd) in G. injection G as _ <-.
    split; [|simpl; eauto]. simpl. unfold api_sends.
    rewrite !omap_app. simpl. by rewrite !app_nil_r.
Qed.

(** ** Properties of the token lifecycle manager *)

(** C6: a successful acquisition or refresh whose response reports
    [expires_in] = [e] seconds stores [expires_at] = [now + e*1000 - 60000],
    where [now] is the instant at which the response arrived and the
    Credential is stored. *)
Theorem expires_at_margin (env : Env) (w : World) (d : TokenData) (e : Z) :
  data_expires_in d = Some e ->
  (granted env (length (trace w)) client_credentials = Some d ->
   exists w' t,
     getAccessToken env w = (Resolved tt, w') /\ token w' = Some t
     /\ now w' = now w + Z.of_N (latency env (length (trace w)))
     /\ expires_at t = Some (now w' + e * 1000 - 60000))
  /\ (forall rt,
       Js.usable (this_refresh_token w) = Some rt ->
       granted env (length (trace w)) (refresh_token_grant rt) = Some d ->
       exists w' t,
         refreshToken env w = (Resolved tt, w') /\ token w' = Some t
         /\ now w' = now w + Z.of_N (latency env (length (trace w)))
         /\ expires_at t = Some (now w' + e * 1000 - 60000)).
Proof.
  intros He. split.
  - intros G. rewrite (getAccessToken_granted _ _ _ G).
    eexists _, _. repeat split. simpl. unfold expiry. by rewrite He.
  - intros rt Hu G. rewrite (refreshToken_granted _ _ _ _ Hu G).
    eexists _, _. repeat split. simpl. unfold expiry. by rewrite He.
Qed.

Lemma expires_at_margin_witness :
  exists w' t,
    getAccessToken (Scenario.env_of (Some Scenario.A1) Scenario.api_ok)
                   (init 1000000) = (Resolved tt, w')
    /\ token w' = Some t
    /\ now w' = 1000000 + 25
    /\ expires_at t = Some (now w' + 3600 * 1000 - 60000).
Proof.
  apply (proj1 (expires_at_margin
                  (Scenario.env_of (Some Scenario.A1) Scenario.api_ok)
                  (init 1000000) Scenario.A1 3600 eq_refl)).
  reflexivity.
Defined.

(** The replies on which the [try] block of [getAccessToken] and
    [refreshToken] throws. *)
Lemma reply_data_None (r : HttpReply (option TokenData)) :
  reply_data r = None
  <-> r = NetworkError
      \/ (exists s d, r = Reply s d /\ validateStatus s = false)
      \/ (exists s, r = Reply s None).
Proof.
  split.
  - destruct r as [|s [d|]]; simpl.
    + by left.
    + destruct (validateStatus s) eqn:V; [discriminate|].
      intros _. right. left. eauto.
    + intros _. right. right. eauto.
  - intros [-> | [(s & d & -> & V) | (s & ->)]]; simpl; [done | | done].
    destruct d; [by rewrite V | done].
Qed.

(** C9, as the code has it: an acquisition fails on a network error, on a
    status outside 2xx and on a [null] body, and on nothing else; it then
    makes [getAccessToken] throw AuthenticationFailure and leaves the
    stored Credential unchanged. Whenever a call of [ensureValidToken]
    posted a client-credentials grant that failed, that call throws
    AuthenticationFailure and the Credential is what it was before, so
    none is stored when there was none. *)
Theorem acquire_failure (env : Env) (w : World) :
  (forall n g,
     granted env n g = None
     <-> token_endpoint env n g = NetworkError
         \/ (exists s d, token_endpoint env n g = Reply s d
                          /\ validateStatus s = false)
         \/ (exists s, token_endpoint env n g = Reply s None))
  /\ (granted env (length (trace w)) client_credentials = None ->
      getAccessToken env w =
        (Rejected AuthenticationFailure,
         network env (TokenPost client_credentials) w))
  /\ (forall d,
       granted env (length (trace w)) client_credentials = Some d ->
       exists w', getAccessToken env w = (Resolved tt, w'))
  /\ (forall r w' n,
       ensureValidToken env w = (r, w') ->
       (length (trace w) <= n)%nat ->
       trace w' !! n = Some (TokenPost client_credentials) ->
       granted env n client_credentials = None ->
       r = Rejected AuthenticationFailure
       /\ token w' = token w
       /\ (token w = None -> token w' = None)).
Proof.
  split; [intros n g; apply reply_data_None|].
  split; [apply getAccessToken_refused|].
  split; [intros d G; rewrite (getAccessToken_granted _ _ _ G); eauto|].
  intros r w' n H Hn Hl G.
  assert (forall v r0 w0,
             getAccessToken env v = (r0, w0) ->
             trace w0 !! n = Some (TokenPost client_credentials) ->
             (length (trace v) <= n)%nat ->
             r0 = Rejected AuthenticationFailure /\ token w0 = token v) as Hacq.
  { intros v r0 w0 Hg Hl0 Hn0.
    destruct (getAccessToken_outcome _ _ _ _ Hg) as (Ht & Hc).
    rewrite Ht in Hl0.
    assert (n = length (trace v)) as ->.
    { apply lookup_lt_Some in Hl0. rewrite length_app in Hl0. simpl in Hl0. lia. }
    destruct Hc as [(_ & d & Hd) | (-> & _ & Hk)]; [congruence | done]. }
  destruct (ensureValidToken_cases _ _ _ _ H)
    as [(_ & _ & ->) | [(_ & _ & Hg) | [(_ & rt & d & _ & _ & _ & ->)
                     | (_ & rt & _ & _ & Hg)]]].
  - apply lookup_lt_Some in Hl. lia.
  - destruct (Hacq _ _ _ Hg Hl Hn) as [-> Hk]. rewrite Hk. done.
  - simpl in Hl. apply lookup_lt_Some in Hl as Hlt.
    rewrite length_app in Hlt. simpl in Hlt.
    assert (n = length (trace w)) as -> by lia.
    rewrite lookup_app_r, Nat.sub_diag in Hl by lia. discriminate.
  - destruct (Hacq _ _ _ Hg Hl) as [-> Hk].
    { rewrite trace_network, length_app. simpl.
      destruct (decide (n = length (trace w))) as [->|]; [|lia].
      destruct (getAccessToken_outcome _ _ _ _ Hg) as (Ht & _).
      rewrite Ht, trace_network in Hl.
      rewrite <- app_assoc in Hl.
      rewrite lookup_app_r, Nat.sub_diag in Hl by lia. discriminate. }
    rewrite Hk, token_network. done.
Qed.

Lemma acquire_failure_witness :
  exists w',
    ensureValidToken Scenario.env_down (init 0)
    = (Rejected AuthenticationFailure, w')
    /\ getAccessToken Scenario.env_down (init 0)
       = (Rejected AuthenticationFailure, w')
    /\ token w' = None.
Proof.
  destruct (acquire_failure Scenario.env_down (init 0)) as (_ & Hg & _ & He).
  destruct (He (ensureValidToken Scenario.env_down (init 0)).1
               (ensureValidToken Scenario.env_down (init 0)).2
               0%nat eq_refl (Nat.le_refl 0) eq_refl eq_refl)
    as (Hr & _ & Hn).
  eexists. split; [reflexivity|]. split; [exact (Hg eq_refl)|].
  exact (Hn eq_refl).
Defined.

(** C9 as stated fails for a malformed body: the endpoint answers 200
    with a body that has none of the token fields; no error is raised and
    a Credential without access token and without expiry is stored. *)
Lemma body_without_token_is_stored :
  exists w' t,
    ensureValidToken
      (Scenario.env_of (Some Scenario.empty_body) Scenario.api_ok) (init 0)
    = (Resolved tt, w')
    /\ token (init 0) = None
    /\ token w' = Some t
    /\ access_token t = None
    /\ expires_at t = None.
Proof. eexists _, _. repeat (split; [reflexivity|]). reflexivity. Qed.

(** C5: a successful refresh whose response omits [refresh_token] keeps
    the refresh token of the previous Credential; a response that supplies
    a refresh token (a non-empty string) replaces it. The empty string is
    no refresh token for [||], as everywhere in the code, and counts as
    omitted. *)
Theorem refresh_token_retained (env : Env) (w : World) (rt : string)
    (d : TokenData) :
  Js.usable (this_refresh_token w) = Some rt ->
  granted env (length (trace w)) (refresh_token_grant rt) = Some d ->
  exists w' t,
    refreshToken env w = (Resolved tt, w')
    /\ token w' = Some t
    /\ access_token t = data_access_token d
    /\ this_refresh_token w = Some rt
    /\ (data_refresh_token d = None -> refresh_token t = Some rt)
    /\ (forall r, data_refresh_token d = Some r -> r <> "" ->
                  refresh_token t = Some r)
    /\ (data_refresh_token d = Some "" -> refresh_token t = Some rt).
Proof.
  intros Hu G. rewrite (refreshToken_granted _ _ _ _ Hu G).
  eexists _, _. split; [reflexivity|]. split; [reflexivity|]. simpl.
  split; [done|]. split; [by apply usable_eq|].
  unfold Js.or. repeat split.
  - by intros ->.
  - intros r -> Hr. by rewrite truthy_nonempty.
  - by intros ->.
Qed.

Lemma refresh_token_retained_witness :
  exists w' t,
    refreshToken (Scenario.env_of (Some Scenario.A2_rotated) Scenario.api_ok)
                 (Scenario.with_R1 0 5) = (Resolved tt, w')
    /\ token w' = Some t
    /\ access_token t = Some "A2"
    /\ refresh_token t = Some "R2".
Proof.
  destruct (refresh_token_retained
              (Scenario.env_of (Some Scenario.A2_rotated) Scenario.api_ok)
              (Scenario.with_R1 0 5) "R1" Scenario.A2_rotated eq_refl eq_refl)
    as (w' & t & H1 & H2 & H3 & _ & _ & H4 & _).
  exists w', t.
  repeat split; [exact H1 | exact H2 | exact H3 |].
  apply (H4 "R2"); [reflexivity | discriminate].
Defined.

(** The scenario of the specification: the response has no
    [refresh_token] and ["R1"] is kept. *)
Lemma refresh_keeps_R1 :
  exists w' t,
    refreshToken (Scenario.env_of (Some Scenario.A2) Scenario.api_ok)
                 (Scenario.with_R1 0 5) = (Resolved tt, w')
    /\ token w' = Some t
    /\ access_token t = Some "A2"
    /\ refresh_token t = Some "R1"
    /\ expires_at t = Some (now w' + 1800 * 1000 - 60000).
Proof. eexists _, _. repeat (split; [reflexivity|]). reflexivity. Qed.

(** C4, as the code has it: when the [refresh_token] grant fails,
    [refreshToken] goes on with the client-credentials grant. If that one
    succeeds, no error is raised and a new Credential built from its
    response is stored, unexpired when the response reports more than the
    60 s margin; an error reaches the caller only when the
    client-credentials grant fails too, and that error is
    AuthenticationFailure. *)
Theorem refresh_failure_falls_back (env : Env) (w : World) (rt : string) :
  Js.usable (this_refresh_token w) = Some rt ->
  granted env (length (trace w)) (refresh_token_grant rt) = None ->
  let w1 := network env (TokenPost (refresh_token_grant rt)) w in
  refreshToken env w = getAccessToken env w1
  /\ (forall d,
       granted env (length (trace w1)) client_credentials = Some d ->
       exists w' t,
         refreshToken env w = (Resolved tt, w')
         /\ token w' = Some t
         /\ access_token t = data_access_token d
         /\ expires_at t = expiry (now w') d
         /\ trace w' = trace w ++ [TokenPost (refresh_token_grant rt);
                                   TokenPost client_credentials]
         /\ (forall e, data_expires_in d = Some e -> 60 < e ->
                       valid_credential w'))
  /\ (forall e w',
       refreshToken env w = (Rejected e, w') ->
       e = AuthenticationFailure
       /\ granted env (length (trace w1)) client_credentials = None
       /\ token w' = token w).
Proof.
  intros Hu G w1.
  pose proof (refreshToken_refused _ _ _ Hu G) as Hr. fold w1 in Hr.
  split; [exact Hr|]. split.
  - intros d Hd. rewrite Hr, (getAccessToken_granted _ _ _ Hd).
    eexists _, _. split; [reflexivity|]. split; [reflexivity|]. simpl.
    split; [done|]. split; [done|]. split; [by rewrite <- app_assoc|].
    intros e He Hlt. eexists _, _. split; [reflexivity|]. simpl.
    unfold expiry. rewrite He. split; [done|]. lia.
  - intros e w' H. rewrite Hr in H.
    destruct (getAccessToken_outcome _ _ _ _ H)
      as (_ & [(? & _) | (He & Hg & Hk)]); [discriminate|].
    injection He as <-. rewrite Hk. done.
Qed.

Lemma refresh_failure_falls_back_witness :
  exists w' t,
    refreshToken (Scenario.env_refresh_broken Scenario.A3)
                 (Scenario.with_R1 0 5)
      = (Resolved tt, w')
    /\ token w' = Some t
    /\ access_token t = Some "A3"
    /\ valid_credential w'.
Proof.
  destruct (refresh_failure_falls_back
              (Scenario.env_refresh_broken Scenario.A3)
              (Scenario.with_R1 0 5) "R1" eq_refl eq_refl)
    as (_ & H & _).
  destruct (H Scenario.A3 eq_refl)
    as (w' & t & H1 & H2 & H3 & _ & _ & H4).
  exists w', t. repeat split; [exact H1 | exact H2 | exact H3 |].
  apply (H4 3600); [reflexivity | lia].
Defined.

(** C4 as stated fails: the refresh is refused, the fallback acquisition
    succeeds with [expires_in] = 30, no error is raised, and the Credential
    stored is already expired. *)
Lemma fallback_stores_expired_credential :
  exists w',
    refreshToken (Scenario.env_refresh_broken Scenario.short_lived)
                 (Scenario.with_R1 0 5) = (Resolved tt, w')
    /\ token_posts (trace w')
       = [refresh_token_grant "R1"; client_credentials]
    /\ ~ valid_credential w'.
Proof.
  eexists. split; [reflexivity|]. split; [reflexivity|].
  intros (t & e & Ht & He & Hlt). simpl in Ht. injection Ht as <-.
  simpl in He. injection He as <-. simpl in Hlt. lia.
Qed.

(** C3: [ensureValidToken] with no Credential posts the
    [client_credentials] grant; with an expired Credential that carries a
    refresh token it is [refreshToken]: the first thing posted is the
    [refresh_token] grant, and a [client_credentials] grant follows only if
    that one was refused; with an unexpired Credential it changes nothing
    and sends nothing. *)
Theorem ensureValidToken_dispatch (env : Env) (w : World) :
  (token w = None ->
   ensureValidToken env w = getAccessToken env w
   /\ exists r w',
       ensureValidToken env w = (r, w')
       /\ trace w' = trace w ++ [TokenPost client_credentials])
  /\ (forall t e rt,
       token w = Some t -> expires_at t = Some e -> e <= now w ->
       refresh_token t = Some rt -> rt <> "" ->
       ensureValidToken env w = refreshToken env w
       /\ exists r w' rest,
           ensureValidToken env w = (r, w')
           /\ trace w' = trace w ++ TokenPost (refresh_token_grant rt) :: rest
           /\ (rest = []
               \/ (rest = [TokenPost client_credentials]
                   /\ granted env (length (trace w)) (refresh_token_grant rt)
                      = None)))
  /\ (forall t e,
       token w = Some t -> expires_at t = Some e -> now w < e ->
       ensureValidToken env w = (Resolved tt, w)).
Proof.
  split; [|split].
  - intros Hn.
    assert (ensureValidToken env w = getAccessToken env w) as E.
    { unfold ensureValidToken, missing_or_expired, this_refresh_token.
      by rewrite Hn. }
    split; [exact E|]. rewrite E.
    destruct (getAccessToken env w) as [r w'] eqn:G.
    exists r, w'. split; [done|].
    by destruct (getAccessToken_outcome _ _ _ _ G).
  - intros t e rt Ht He Hle Hrt Hne.
    assert (ensureValidToken env w = refreshToken env w) as E.
    { unfold ensureValidToken, missing_or_expired, this_refresh_token.
      rewrite Ht, He, Hrt. rewrite truthy_nonempty by done.
      by destruct (Z.leb_spec e (now w)); [|lia]. }
    split; [exact E|]. rewrite E.
    assert (Js.usable (this_refresh_token w) = Some rt) as Hu.
    { unfold Js.usable, this_refresh_token. rewrite Ht, Hrt.
      by rewrite truthy_nonempty. }
    destruct (granted env (length (trace w)) (refresh_token_grant rt))
      as [d|] eqn:G.
    + rewrite (refreshToken_granted _ _ _ _ Hu G).
      eexists _, _, []. split; [reflexivity|]. split; [done | by left].
    + rewrite (refreshToken_refused _ _ _ Hu G).
      destruct (getAccessToken env _) as [r w'] eqn:Hg.
      exists r, w', [TokenPost client_credentials]. split; [done|].
      destruct (getAccessToken_outcome _ _ _ _ Hg) as (Hp & _).
      rewrite Hp, trace_network, <- app_assoc. split; [done | by right].
  - intros t e Ht He Hlt.
    unfold ensureValidToken, missing_or_expired. rewrite Ht, He.
    by destruct (Z.leb_spec e (now w)); [lia|].
Qed.

Lemma ensureValidToken_dispatch_witness :
  (ensureValidToken (Scenario.env_of (Some Scenario.A1) Scenario.api_ok)
                    (init 0)
   = getAccessToken (Scenario.env_of (Some Scenario.A1) Scenario.api_ok)
                    (init 0))
  /\ (ensureValidToken (Scenario.env_of (Some Scenario.A2) Scenario.api_ok)
                       (Scenario.with_R1 10 10)
      = refreshToken (Scenario.env_of (Some Scenario.A2) Scenario.api_ok)
                     (Scenario.with_R1 10 10))
  /\ (ensureValidToken (Scenario.env_of (Some Scenario.A2) Scenario.api_ok)
                       (Scenario.with_R1 10 9)
      = (Resolved tt, Scenario.with_R1 10 9)).
Proof.
  split; [|split].
  - apply (proj1 (ensureValidToken_dispatch
                    (Scenario.env_of (Some Scenario.A1) Scenario.api_ok)
                    (init 0))).
    reflexivity.
  - eapply (proj1 (proj2 (ensureValidToken_dispatch
                    (Scenario.env_of (Some Scenario.A2) Scenario.api_ok)
                    (Scenario.with_R1 10 10)))); 
      [reflexivity | reflexivity | simpl; lia | reflexivity | discriminate].
  - eapply (proj2 (proj2 (ensureValidToken_dispatch
                    (Scenario.env_of (Some Scenario.A2) Scenario.api_ok)
                    (Scenario.with_R1 10 9)))); 
      [reflexivity | reflexivity | simpl; lia].
Defined.

(** ** The post-condition of [ensureValidToken] *)

(** One call, from a state whose stored expiry is a number. *)
Lemma ensureValidToken_step (env : Env) (w : World) r w' :
  outlives_margin env ->
  numeric_expiry w ->
  ensureValidToken env w = (r, w') ->
  numeric_expiry w'
  /\ ((r = Resolved tt /\ valid_credential w')
      \/ (r = Rejected AuthenticationFailure
          /\ token w' = token w
          /\ last (trace w') = Some (TokenPost client_credentials)
          /\ granted env (Nat.pred (length (trace w'))) client_credentials
             = None)).
Proof.
  intros Henv Hnum H.
  assert (forall v d keep,
             (exists n g, granted env n g = Some d) ->
             let v' := set_token
                         (Some {| access_token := data_access_token d;
                                  refresh_token := keep;
                                  expires_at := expiry (now v) d;
                                  token_type := token_type_of d |}) v in
             numeric_expiry v' /\ valid_credential v') as Hfresh.
  { intros v d keep (n & g & G) v'.
    destruct (Henv _ _ _ G) as (e & He & Hlt). split.
    - intros t [= <-]. simpl. unfold expiry. by rewrite He.
    - eexists _, _. split; [reflexivity|]. simpl. unfold expiry. rewrite He.
      split; [done | lia]. }
  destruct r as [[] | e].
  - destruct (ensureValidToken_cases _ _ _ _ H)
      as [(M & _ & ->) | [(_ & _ & G) | [(_ & rt & d & _ & Hd & _ & ->)
                       | (_ & rt & _ & _ & G)]]].
    + split; [done|]. left. split; [done|].
      unfold missing_or_expired in M.
      destruct (token w) as [t|] eqn:Ht; [|discriminate].
      destruct (expires_at t) as [e|] eqn:He; [|by destruct (Hnum t)].
      exists t, e. repeat split; try done.
      by destruct (Z.leb_spec e (now w)).
    + destruct (getAccessToken_outcome _ _ _ _ G)
        as (_ & [(_ & d & Hd) | (? & _)]); [|discriminate].
      rewrite (getAccessToken_granted _ _ _ Hd) in G. injection G as <-.
      destruct (Hfresh (network env (TokenPost client_credentials) w) d
                       (data_refresh_token d)) as [? ?]; eauto.
    + destruct (Hfresh (network env (TokenPost (refresh_token_grant rt)) w) d
                       (Js.or (data_refresh_token d) (Some rt))) as [? ?];
        eauto.
    + destruct (getAccessToken_outcome _ _ _ _ G)
        as (_ & [(_ & d & Hd) | (? & _)]); [|discriminate].
      rewrite (getAccessToken_granted _ _ _ Hd) in G. injection G as <-.
      destruct (Hfresh (network env (TokenPost client_credentials)
                          (network env (TokenPost (refresh_token_grant rt)) w))
                       d (data_refresh_token d)) as [? ?]; eauto.
  - destruct (ensureValidToken_rejected _ _ _ _ H) as (-> & Hk & _ & Hl & Hg).
    split; [|by right]. intros t Ht. rewrite Hk in Ht. by apply Hnum.
Qed.

Lemma ensure_sequence_numeric (env : Env) (gaps : list N) (w : World) :
  outlives_margin env ->
  numeric_expiry w ->
  numeric_expiry (ensure_sequence env gaps w).
Proof.
  intros Henv. revert w.
  induction gaps as [|d gaps IH]; intros w Hnum; simpl; [done|].
  apply IH.
  destruct (ensureValidToken env (tick d w)) as [r w'] eqn:E.
  by destruct (ensureValidToken_step env (tick d w) r w' Henv Hnum E).
Qed.

(** C2, as the code has it: after any sequence of calls on a fresh server
    whose token endpoint only grants lifetimes above the 60 s margin, a
    call that returns without error leaves a Credential whose [expires_at]
    is strictly greater than the current time; otherwise the call threw
    AuthenticationFailure after a refused client-credentials grant. *)
Theorem ensureValidToken_postcondition (env : Env) (gaps : list N)
    (d : N) (t0 : Z) r w' :
  outlives_margin env ->
  ensureValidToken env (tick d (ensure_sequence env gaps (init t0))) = (r, w') ->
  (r = Resolved tt /\ valid_credential w')
  \/ (r = Rejected AuthenticationFailure
      /\ last (trace w') = Some (TokenPost client_credentials)
      /\ granted env (Nat.pred (length (trace w'))) client_credentials = None).
Proof.
  intros Henv H.
  assert (numeric_expiry (tick d (ensure_sequence env gaps (init t0)))) as Hn.
  { apply (ensure_sequence_numeric env gaps (init t0) Henv). by intros t. }
  destruct (ensureValidToken_step _ _ _ _ Henv Hn H)
    as (_ & [? | (? & _ & ? & ?)]); [by left | by right].
Qed.

Lemma ensureValidToken_postcondition_witness :
  exists w',
    ensureValidToken (Scenario.env_of (Some Scenario.A1) Scenario.api_ok)
      (tick 10%N (ensure_sequence
                  (Scenario.env_of (Some Scenario.A1) Scenario.api_ok)
                  [0; 4000000]%N (init 0)))
    = (Resolved tt, w')
    /\ valid_credential w'.
Proof.
  assert (outlives_margin
            (Scenario.env_of (Some Scenario.A1) Scenario.api_ok)) as Henv.
  { intros n g d0 G. injection G as <-. exists 3600.
    split; [reflexivity | lia]. }
  eexists. split; [reflexivity|].
  destruct (ensureValidToken_postcondition
              (Scenario.env_of (Some Scenario.A1) Scenario.api_ok)
              [0; 4000000]%N 10%N 0 _ _ Henv eq_refl)
    as [[_ H] | [H _]]; [exact H | discriminate H].
Defined.

(** C2 as stated fails: the endpoint grants a token with [expires_in] = 30;
    [ensureValidToken] returns without error and the stored [expires_at]
    lies 30 s in the past. *)
Lemma short_lived_token_is_stored_expired :
  exists w',
    ensureValidToken
      (Scenario.env_of (Some Scenario.short_lived) Scenario.api_ok)
      (init 1000000) = (Resolved tt, w')
    /\ ~ valid_credential w'.
Proof.
  eexists. split; [reflexivity|].
  intros (t & e & Ht & He & Hlt). simpl in Ht. injection Ht as <-.
  simpl in He. injection He as <-. simpl in Hlt. lia.
Qed.

(** ** The interceptors *)

Lemma api_sends_snoc_post (l : list Event) (g : Grant) :
  api_sends (l ++ [TokenPost g]) = api_sends l.
Proof. unfold api_sends. rewrite omap_app. simpl. by rewrite app_nil_r. Qed.

Lemma api_sends_snoc_send (l : list Event) (c : RequestConfig) :
  api_sends (l ++ [ApiSend c]) = api_sends l ++ [c].
Proof. unfold api_sends. by rewrite omap_app. Qed.

(** [refreshToken] talks to the token endpoint only; when it throws, it
    throws AuthenticationFailure and keeps the Credential; when it returns,
    a Credential is stored, and a refresh token that was known stays known
    unless the Credential comes from the client-credentials grant. *)
Lemma refreshToken_outcome (env : Env) (w : World) r w' :
  refreshToken env w = (r, w') ->
  api_sends (trace w') = api_sends (trace w)
  /\ (forall e, r = Rejected e -> e = AuthenticationFailure /\ token w' = token w)
  /\ (forall u, r = Resolved u -> exists t, token w' = Some t).
Proof.
  assert (forall v r0 w0,
             getAccessToken env v = (r0, w0) ->
             api_sends (trace w0) = api_sends (trace v)
             /\ (forall e, r0 = Rejected e ->
                           e = AuthenticationFailure /\ token w0 = token v)
             /\ (forall u, r0 = Resolved u -> exists t, token w0 = Some t))
    as Hacq.
  { intros v r0 w0 G.
    destruct (getAccessToken_outcome _ _ _ _ G)
      as (Ht & [(-> & d & Hd) | (-> & _ & Hk)]).
    - rewrite Ht, api_sends_snoc_post. split; [done|]. split; [done|].
      intros _ _. rewrite (getAccessToken_granted _ _ _ Hd) in G.
      injection G as <-. simpl. eauto.
    - rewrite Ht, api_sends_snoc_post. split; [done|]. split; [|done].
      by intros e [= <-]. }
  destruct (Js.usable (this_refresh_token w)) as [rt|] eqn:Hu.
  - destruct (granted env (length (trace w)) (refresh_token_grant rt))
      as [d|] eqn:G.
    + rewrite (refreshToken_granted _ _ _ _ Hu G). intros [= <- <-]. simpl.
      rewrite api_sends_snoc_post. split; [done|]. split; [done|]. eauto.
    + rewrite (refreshToken_refused _ _ _ Hu G). intros H.
      destruct (Hacq _ _ _ H) as (Hs & Hr & Ho).
      rewrite trace_network, api_sends_snoc_post in Hs. done.
  - rewrite (refreshToken_without env w) by by apply usable_None.
    apply Hacq.
Qed.

(** What the request interceptor hands to the transport. *)
Lemma request_interceptor_resolved (env : Env) (config : RequestConfig)
    (w : World) config1 w1 :
  request_interceptor env config w = (Resolved config1, w1) ->
  ensureValidToken env w = (Resolved tt, w1)
  /\ exists t,
      token w1 = Some t
      /\ config1 = set_Authorization (bearer (access_token t)) config.
Proof.
  unfold request_interceptor.
  destruct (ensureValidToken env w) as [[[]|e] w0] eqn:E; [|discriminate].
  destruct (ensureValidToken_resolved _ _ _ _ E) as (_ & t & Ht).
  rewrite Ht. intros [= <- <-]. split; [done|]. eauto.
Qed.

Lemma request_interceptor_rejected (env : Env) (config : RequestConfig)
    (w : World) e w1 :
  request_interceptor env config w = (Rejected e, w1) ->
  ensureValidToken env w = (Rejected e, w1).
Proof.
  unfold request_interceptor.
  destruct (ensureValidToken env w) as [[[]|e0] w0] eqn:E.
  - destruct (token w0); discriminate.
  - by intros [= <- <-].
Qed.

(** An error without an HTTP status passes through the response
    interceptor. *)
Lemma response_rejected_no_status (env : Env) request (e : Error) (w : World) :
  error_status e = None ->
  response_rejected env request e w = Some (Rejected e, w).
Proof. intros H. unfold response_rejected. by rewrite H. Qed.

(** C8: a 401 that arrives while no refresh token is stored is handed to
    the caller as it is: the response interceptor neither refreshes nor
    replays, whatever a replay would have done; the request went on the
    wire once. *)
Theorem unauthorized_without_refresh_token (env : Env) (fuel : nat)
    (config config1 : RequestConfig) (w w1 : World) (b : string) :
  request_interceptor env config w = (Resolved config1, w1) ->
  api env (length (trace w1)) config1 = Reply 401 b ->
  Js.truthy (this_refresh_token w1) = false ->
  (forall request error,
     response_rejected env request error (network env (ApiSend config1) w1)
     = Some (Rejected error, network env (ApiSend config1) w1))
  /\ exists w',
      axiosInstance_request env (S fuel) config w
      = Some (Rejected (AxiosError (Some 401) (Some config1)), w')
      /\ trace w' = trace w1 ++ [ApiSend config1]
      /\ token w' = token w1.
Proof.
  intros Hi Ha Hf.
  assert (forall request error,
             response_rejected env request error
               (network env (ApiSend config1) w1)
             = Some (Rejected error, network env (ApiSend config1) w1)) as Hr.
  { intros request error. unfold response_rejected.
    rewrite refresh_token_network, Hf. by rewrite andb_false_r. }
  split; [exact Hr|].
  exists (network env (ApiSend config1) w1). split; [|done].
  simpl. rewrite Hi. unfold dispatchRequest. rewrite Ha. simpl. apply Hr.
Qed.

Lemma unauthorized_without_refresh_token_witness :
  exists w',
    axiosInstance_request
      (Scenario.env_of (Some Scenario.A1) Scenario.api_401) 5
      Scenario.get_contacts (Scenario.without_refresh 10000000 0)
    = Some (Rejected
              (AxiosError (Some 401)
                 (Some (set_Authorization "Bearer A0" Scenario.get_contacts))),
            w')
    /\ trace w'
       = [ApiSend (set_Authorization "Bearer A0" Scenario.get_contacts)].
Proof.
  destruct (unauthorized_without_refresh_token
              (Scenario.env_of (Some Scenario.A1) Scenario.api_401) 4
              Scenario.get_contacts
              (set_Authorization "Bearer A0" Scenario.get_contacts)
              (Scenario.without_refresh 10000000 0)
              (Scenario.without_refresh 10000000 0)
              "" eq_refl eq_refl eq_refl)
    as (_ & w' & H1 & H2 & _).
  exists w'. split; [exact H1 | exact H2].
Defined.

(** The scenario of the specification: a Credential acquired without
    refresh token; a 401 is not replayed. *)
Lemma acquired_without_refresh_token_no_replay :
  exists e w',
    axiosInstance_request
      (Scenario.env_of (Some Scenario.A1) Scenario.api_401) 5
      Scenario.get_contacts (init 0) = Some (Rejected e, w')
    /\ error_status e = Some 401
    /\ this_refresh_token w' = None
    /\ length (api_sends (trace w')) = 1%nat
    /\ token_posts (trace w') = [client_credentials].
Proof. eexists _, _. repeat (split; [reflexivity|]). reflexivity. Qed.

(** Every request that [this.axiosInstance.request] puts on the wire is
    the caller's request with a [Bearer] header, and at least one goes out
    once a token is established. *)
Lemma axiosInstance_request_sends (env : Env) (fuel : nat) :
  forall (config : RequestConfig) (w : World) r w',
    axiosInstance_request env fuel config w = Some (r, w') ->
    exists cs,
      api_sends (trace w') = api_sends (trace w) ++ cs
      /\ Forall (fun c => same_request config c
                          /\ exists a, Authorization c = Some (bearer a)) cs
      /\ (forall u w1, ensureValidToken env w = (Resolved u, w1) -> cs <> []).
Proof.
  induction fuel as [|fuel IH]; intros config w r w' H; [discriminate|].
  simpl in H.
  destruct (request_interceptor env config w) as [[config1|e] w1] eqn:Hi.
  - destruct (request_interceptor_resolved _ _ _ _ _ Hi)
      as (He & t & Ht & ->).
    destruct (ensureValidToken_resolved _ _ _ _ He) as (Hs & _).
    set (config1 := set_Authorization (bearer (access_token t)) config) in *.
    assert (same_request config config1
            /\ exists a, Authorization config1 = Some (bearer a)) as Hc.
    { split; [done | by eexists]. }
    assert (api_sends (trace (network env (ApiSend config1) w1))
            = api_sends (trace w) ++ [config1]) as Hn.
    { by rewrite trace_network, api_sends_snoc_send, Hs. }
    unfold dispatchRequest in H.
    assert (forall st,
               response_rejected env (axiosInstance_request env fuel)
                 (AxiosError st (Some config1))
                 (network env (ApiSend config1) w1) = Some (r, w') ->
               exists cs,
                 api_sends (trace w') = api_sends (trace w) ++ cs
                 /\ Forall (fun c => same_request config c
                            /\ exists a, Authorization c = Some (bearer a)) cs
                 /\ cs <> []) as Hrej.
    { intros st. unfold response_rejected.
      destruct (is_401 _ && Js.truthy _).
      - destruct (refreshToken env _) as [[u|e] w3] eqn:Hr.
        + destruct (refreshToken_outcome _ _ _ _ Hr) as (Hs3 & _).
          simpl. intros Hrec.
          destruct (IH _ _ _ _ Hrec) as (cs & Hcs & Hall & _).
          exists (config1 :: cs). rewrite Hcs, Hs3, Hn, <- app_assoc.
          split; [done|]. split; [|done].
          constructor; [done|].
          eapply Forall_impl; [exact Hall|].
          intros c ((? & ? & ? & ?) & ?). split; [|done].
          repeat split; simpl in *; congruence.
        + destruct (refreshToken_outcome _ _ _ _ Hr) as (Hs3 & _).
          intros [= <- <-]. exists [config1]. rewrite Hs3, Hn.
          split; [done|]. split; [|done]. by constructor.
      - intros [= <- <-]. exists [config1]. rewrite Hn.
        split; [done|]. split; [|done]. by constructor. }
    destruct (api env (length (trace w1)) config1) as [|s b0].
    + destruct (Hrej _ H) as (cs & ? & ? & ?). exists cs. eauto.
    + destruct (validateStatus s).
      * injection H as <- <-. exists [config1]. rewrite Hn.
        split; [done|]. split; [by constructor | done].
      * destruct (Hrej _ H) as (cs & ? & ? & ?). exists cs. eauto.
  - pose proof (request_interceptor_rejected _ _ _ _ _ Hi) as He.
    destruct (ensureValidToken_rejected _ _ _ _ He) as (-> & _ & Hs & _).
    rewrite response_rejected_no_status in H by done.
    injection H as <- <-. exists []. rewrite Hs, app_nil_r.
    split; [done|]. split; [constructor|]. intros u w2 Hu. congruence.
Qed.

(** C7, as the code has it: the request interceptor puts
    [Authorization: Bearer <access_token>] on the request, with the literal
    scheme [Bearer] whatever [token_type] is stored, and every request that
    goes on the wire carries such a header; when [ensureValidToken] throws,
    nothing is sent and its error is what the caller gets. *)
Theorem request_carries_bearer (env : Env) (config : RequestConfig)
    (w : World) :
  (forall config1 w1,
     request_interceptor env config w = (Resolved config1, w1) ->
     ensureValidToken env w = (Resolved tt, w1)
     /\ exists t,
         token w1 = Some t
         /\ Authorization config1
            = Some ("Bearer " +:+ Js.interp (access_token t))
         /\ same_request config config1)
  /\ (forall fuel r w',
       axiosInstance_request env fuel config w = Some (r, w') ->
       exists cs,
         api_sends (trace w') = api_sends (trace w) ++ cs
         /\ Forall (fun c => exists a,
                        Authorization c = Some ("Bearer " +:+ Js.interp a)) cs)
  /\ (forall e w1,
       ensureValidToken env w = (Rejected e, w1) ->
       e = AuthenticationFailure
       /\ api_sends (trace w1) = api_sends (trace w)
       /\ forall fuel,
           axiosInstance_request env (S fuel) config w
           = Some (Rejected e, w1)).
Proof.
  split; [|split].
  - intros config1 w1 Hi.
    destruct (request_interceptor_resolved _ _ _ _ _ Hi) as (He & t & Ht & ->).
    split; [done|]. exists t. done.
  - intros fuel r w' H.
    destruct (axiosInstance_request_sends _ _ _ _ _ _ H) as (cs & Hcs & Hall & _).
    exists cs. split; [done|].
    eapply Forall_impl; [exact Hall|]. by intros c (_ & ?).
  - intros e w1 He.
    destruct (ensureValidToken_rejected _ _ _ _ He) as (-> & _ & Hs & _).
    split; [done|]. split; [done|]. intros fuel. simpl.
    unfold request_interceptor. rewrite He.
    by rewrite response_rejected_no_status.
Qed.

Lemma request_carries_bearer_witness :
  exists t,
    token (ensureValidToken
             (Scenario.env_of (Some Scenario.mac_type) Scenario.api_ok)
             (init 0)).2 = Some t
    /\ token_type t = "MAC"
    /\ Authorization (set_Authorization "Bearer A1" Scenario.get_contacts)
       = Some ("Bearer " +:+ Js.interp (access_token t)).
Proof.
  destruct (proj1 (request_carries_bearer
                     (Scenario.env_of (Some Scenario.mac_type) Scenario.api_ok)
                     Scenario.get_contacts (init 0))
              (set_Authorization "Bearer A1" Scenario.get_contacts)
              _ eq_refl)
    as (_ & t & Ht & Ha & _).
  exists t. split; [exact Ht|]. split; [|exact Ha].
  simpl in Ht. by injection Ht as <-.
Defined.

(** C7 as stated fails: the endpoint reports [token_type] ["MAC"], the
    Credential stores it, and the header sent is ["Bearer A1"], not
    ["MAC A1"]. *)
Lemma stored_token_type_is_not_sent :
  exists config1 w1 t,
    request_interceptor
      (Scenario.env_of (Some Scenario.mac_type) Scenario.api_ok)
      Scenario.get_contacts (init 0) = (Resolved config1, w1)
    /\ token w1 = Some t
    /\ Authorization config1 <> Some (spec_Authorization t).
Proof.
  eexists _, _, _. split; [reflexivity|]. split; [reflexivity|].
  simpl. discriminate.
Qed.

(** ** The replay is itself intercepted *)

Lemma or_truthy (a b : option string) :
  Js.truthy b = true -> Js.truthy (Js.or a b) = true.
Proof. intros H. unfold Js.or. by destruct (Js.truthy a) eqn:E. Qed.

Lemma truthy_usable (v : option string) :
  Js.truthy v = true -> exists s, Js.usable v = Some s /\ Js.truthy (Some s) = true.
Proof.
  intros H. unfold Js.usable. rewrite H.
  destruct v as [s|]; [eauto | discriminate].
Qed.

(** With a refresh token known and a token endpoint that grants every
    request, a refresh succeeds and a refresh token is still known after
    it. *)
Lemma refreshToken_keeps_refreshing (env : Env) (w : World) :
  (forall n g, exists d, granted env n g = Some d) ->
  Js.truthy (this_refresh_token w) = true ->
  exists w',
    refreshToken env w = (Resolved tt, w')
    /\ Js.truthy (this_refresh_token w') = true.
Proof.
  intros Hg Ht.
  destruct (truthy_usable _ Ht) as (rt & Hu & Hrt).
  destruct (Hg (length (trace w)) (refresh_token_grant rt)) as [d Hd].
  rewrite (refreshToken_granted _ _ _ _ Hu Hd).
  eexists. split; [reflexivity|]. by apply or_truthy.
Qed.

(** X7: an API that answers 401 forever, behind a token endpoint that
    keeps granting refreshes: a request made while a refresh token is known
    never settles, however many replays are allowed. *)
Lemma persistent_401_never_settles (env : Env) :
  (forall n c, exists b, api env n c = Reply 401 b) ->
  (forall n g, exists d, granted env n g = Some d) ->
  forall fuel config w,
    Js.truthy (this_refresh_token w) = true ->
    axiosInstance_request env fuel config w = None.
Proof.
  intros Ha Hg fuel.
  induction fuel as [|fuel IH]; intros config w Ht; [done|].
  simpl.
  assert (exists config1 w1,
             request_interceptor env config w = (Resolved config1, w1)
             /\ Js.truthy (this_refresh_token w1) = true)
    as (config1 & w1 & -> & Ht1).
  { unfold request_interceptor, ensureValidToken.
    destruct (missing_or_expired w).
    - rewrite Ht.
      destruct (refreshToken_keeps_refreshing _ _ Hg Ht) as (w1 & -> & Ht1).
      unfold this_refresh_token in Ht1.
      destruct (token w1) as [t|] eqn:E; [|discriminate].
      eexists _, _. split; [reflexivity|].
      unfold this_refresh_token. by rewrite E.
    - unfold this_refresh_token in Ht.
      destruct (token w) as [t|] eqn:E; [|discriminate].
      eexists _, _. split; [reflexivity|].
      unfold this_refresh_token. by rewrite E. }
  unfold dispatchRequest.
  destruct (Ha (length (trace w1)) config1) as [b ->]. simpl.
  unfold response_rejected. simpl.
  rewrite refresh_token_network, Ht1.
  destruct (refreshToken_keeps_refreshing _ (network env (ApiSend config1) w1)
              Hg Ht1) as (w3 & -> & Ht3).
  by apply IH.
Qed.

(** When the refresh and the fallback acquisition both fail, the [catch]
    swallows the failure: nothing is replayed and the caller gets the first
    401. *)
Lemma failed_refresh_surfaces_first_401 :
  exists w',
    axiosInstance_request Scenario.env_revoked 5 Scenario.get_contacts
      (Scenario.with_R1 10000000 0)
    = Some (Rejected
              (AxiosError (Some 401)
                 (Some (set_Authorization "Bearer A0" Scenario.get_contacts))),
            w')
    /\ length (api_sends (trace w')) = 1%nat
    /\ token_posts (trace w')
       = [refresh_token_grant "R1"; client_credentials].
Proof. eexists. repeat (split; [reflexivity|]). reflexivity. Qed.

(** C1, at a failing input: a Credential with refresh token ["R1"], an API
    that answers 401, 401, 200 and a token endpoint that grants each
    refresh. The replay of the request is answered 401 and is replayed in
    turn: three requests go on the wire and two refreshes are posted, and
    the caller gets the third answer. Two rounds do not settle the
    request. *)
Theorem second_401_is_replayed_again :
  exists w',
    axiosInstance_request
      (Scenario.env_of (Some Scenario.A2) Scenario.api_401_twice) 3
      Scenario.get_contacts (Scenario.with_R1 10000000 0)
    = Some (Resolved {| status := 200; body := "{}" |}, w')
    /\ length (api_sends (trace w')) = 3%nat
    /\ token_posts (trace w')
       = [refresh_token_grant "R1"; refresh_token_grant "R1"]
    /\ axiosInstance_request
         (Scenario.env_of (Some Scenario.A2) Scenario.api_401_twice) 2
         Scenario.get_contacts (Scenario.with_R1 10000000 0) = None.
Proof.
  eexists. split; [reflexivity|]. split; [reflexivity|].
  split; reflexivity.
Qed.

(** ** The [limit] parameter of the list handlers *)

Lemma put_str_other (k j : string) v (p : gmap string Val) :
  k <> j -> put_str k v p !! j = p !! j.
Proof.
  intros H. unfold put_str. destruct (Js.usable v); [|done].
  by rewrite lookup_insert_ne.
Qed.

Lemma put_num_other (k j : string) v (p : gmap string Val) :
  k <> j -> put_num k v p !! j = p !! j.
Proof.
  intros H. unfold put_num. destruct v; [|done].
  destruct (Js.truthy_num _); [|done]. by rewrite lookup_insert_ne.
Qed.

Lemma put_bool_other (k j : string) v (p : gmap string Val) :
  k <> j -> put_bool k v p !! j = p !! j.
Proof.
  intros H. unfold put_bool. destruct v; [|done].
  destruct (Js.truthy_bool _); [|done]. by rewrite lookup_insert_ne.
Qed.

Lemma put_list_other (k j : string) v (p : gmap string Val) :
  k <> j -> put_list k v p !! j = p !! j.
Proof.
  intros H. unfold put_list. destruct v; [|done].
  by rewrite lookup_insert_ne.
Qed.

Lemma put_limit_lookup v (p : gmap string Val) :
  p !! "limit" = None -> put_limit v p !! "limit" = limit_param v.
Proof.
  intros H. unfold put_limit, limit_param, Js.truthy_num.
  destruct v as [n|]; [|done].
  destruct (n =? 0); cbn [negb]; [done | apply lookup_insert_eq].
Qed.

Local Ltac limit_lookup :=
  repeat first
    [ rewrite put_str_other by discriminate
    | rewrite put_num_other by discriminate
    | rewrite put_bool_other by discriminate
    | rewrite put_list_other by discriminate
    | rewrite put_limit_lookup
    | rewrite lookup_empty ];
  try reflexivity.

(** What each handler passes to [this.axiosInstance.get] has [limit_param]
    under ["limit"]; a handler that destructures throws on [undefined]
    arguments before it sends anything. *)
Lemma call_tool_get (env : Env) (fuel : nat) (t : ListTool)
    (args : option Args) (w : World) :
  (exists u p,
      p !! "limit" = limit_param (opt args limit)
      /\ call_tool env fuel t args w = axiosInstance_get env fuel u p w)
  \/ (args = None /\ call_tool env fuel t args w = Some (Rejected TypeError, w)).
Proof.
  destruct t; simpl;
    unfold searchContacts, listCampaigns, listEmails, listForms, listSegments,
      list_with, getFormSubmissions, getSegmentContacts, getContactActivity;
    try (left; eexists _, _; split; [|reflexivity]; limit_lookup);
    (destruct args as [a|]; [left | by right]);
    (eexists _, _; split; [|reflexivity]); simpl; limit_lookup.
Qed.

(** The handlers are a GET whose path and parameters depend on the
    arguments alone. *)
Lemma call_tool_is_get (t : ListTool) (args : option Args) :
  (exists u p,
      p !! "limit" = limit_param (opt args limit)
      /\ forall env fuel w,
          call_tool env fuel t args w = axiosInstance_get env fuel u p w)
  \/ (args = None /\ destructures t = true
      /\ forall env fuel w,
          call_tool env fuel t args w = Some (Rejected TypeError, w)).
Proof.
  destruct t; simpl;
    unfold searchContacts, listCampaigns, listEmails, listForms, listSegments,
      list_with, getFormSubmissions, getSegmentContacts, getContactActivity;
    try (left; eexists _, _; split; [|reflexivity]; limit_lookup);
    (destruct args as [a|]; [left | by right]);
    (eexists _, _; split; [|reflexivity]); simpl; limit_lookup.
Qed.

(** A request made once a token is established and answered 2xx: one
    request goes on the wire, with the stored access token, and its
    response is the result. *)
Lemma axiosInstance_request_resolves (env : Env) (fuel : nat)
    (config : RequestConfig) (w : World) u0 w1 (s : Z) (b : string) :
  ensureValidToken env w = (Resolved u0, w1) ->
  api env (length (trace w1))
      (set_Authorization (bearer (this_access_token w1)) config) = Reply s b ->
  validateStatus s = true ->
  axiosInstance_request env (S fuel) config w
  = Some (Resolved {| status := s; body := b |},
          network env
            (ApiSend (set_Authorization (bearer (this_access_token w1)) config))
            w1).
Proof.
  intros He Ha V. cbn [axiosInstance_request].
  unfold request_interceptor. rewrite He.
  destruct (ensureValidToken_resolved _ _ _ _ He) as (_ & t & Ht).
  unfold this_access_token in Ha |- *. rewrite Ht in Ha |- *.
  unfold dispatchRequest. by rewrite Ha, V.
Qed.

(** C10: each of the eight handlers is a GET whose [limit] parameter is
    [min(limit, 200)] when the caller's [limit] is a non-zero number, and
    which has no [limit] parameter when [limit] is absent or zero. Once a
    token is established that request goes on the wire, and with a 2xx
    answer the call settles after this one request; every request of a
    call that settles, replays included, carries the same [limit]. Only a
    destructuring handler called without arguments sends nothing: it
    throws a TypeError. *)
Theorem limit_is_capped (env : Env) (fuel : nat) (t : ListTool)
    (args : option Args) (w : World) :
  (args = None -> destructures t = true ->
   call_tool env fuel t args w = Some (Rejected TypeError, w))
  /\ (args <> None \/ destructures t = false ->
      exists u p,
        (forall n, opt args limit = Some n -> n <> 0 ->
                   p !! "limit" = Some (VNum (Z.min n 200)))
        /\ (opt args limit = None \/ opt args limit = Some 0 ->
            p !! "limit" = None)
        /\ (forall u0 w1 s b,
              ensureValidToken env w = (Resolved u0, w1) ->
              api env (length (trace w1))
                  (set_Authorization (bearer (this_access_token w1))
                     {| method := GET; url := u; params := p; data := None;
                        Authorization := None |}) = Reply s b ->
              validateStatus s = true ->
              exists o,
                call_tool env (S fuel) t args w
                = Some (o,
                        network env
                          (ApiSend
                             (set_Authorization
                                (bearer (this_access_token w1))
                                {| method := GET; url := u; params := p;
                                   data := None; Authorization := None |}))
                          w1))
        /\ (forall r w',
              call_tool env fuel t args w = Some (r, w') ->
              exists cs,
                api_sends (trace w') = api_sends (trace w) ++ cs
                /\ Forall (fun c => url c = u /\ params c = p) cs
                /\ (forall u0 w1,
                      ensureValidToken env w = (Resolved u0, w1) ->
                      cs <> []))).
Proof.
  destruct (call_tool_is_get t args) as [(u & p & Hp & E) | (-> & Hd & E)].
  - split.
    + intros -> Hd. specialize (E env fuel w). revert E.
      destruct t; try discriminate Hd; simpl;
        unfold getFormSubmissions, getSegmentContacts, getContactActivity;
        done.
    + intros _. exists u, p. split; [|split; [|split]].
      * intros n Hn Hz. rewrite Hp, Hn. unfold limit_param.
        by destruct (Z.eqb_spec n 0).
      * intros [Hn | Hn]; by rewrite Hp, Hn.
      * intros u0 w1 s b He Ha V. eexists. rewrite E.
        unfold axiosInstance_get.
        by rewrite (axiosInstance_request_resolves _ _ _ _ _ _ _ _ He Ha V).
      * intros r w' H. rewrite E in H. unfold axiosInstance_get in H.
        destruct (axiosInstance_request_sends _ _ _ _ _ _ H)
          as (cs & Hcs & Hall & Hne).
        exists cs. split; [done|]. split; [|done].
        eapply Forall_impl; [exact Hall|].
        by intros c ((_ & ? & ? & _) & _).
  - split.
    + intros _ _. apply E.
    + intros [Hn | Hf]; [done | congruence].
Qed.

Lemma limit_is_capped_witness :
  exists o c w',
    call_tool (Scenario.env_of (Some Scenario.A1) Scenario.api_ok) 3
      get_form_submissions (Some (Scenario.args_limit (Some 500))) (init 0)
    = Some (o, w')
    /\ api_sends (trace w') = [c]
    /\ url c = "/forms/7/submissions"
    /\ params c !! "limit" = Some (VNum 200).
Proof.
  destruct (proj2 (limit_is_capped
                     (Scenario.env_of (Some Scenario.A1) Scenario.api_ok) 2
                     get_form_submissions
                     (Some (Scenario.args_limit (Some 500))) (init 0)))
    as (u & p & Hl & _ & Hsend & _); [by left|].
  pose proof (Hl 500 eq_refl ltac:(lia)) as Hp.
  destruct (Hsend tt _ 200 "{}" eq_refl eq_refl eq_refl) as [o Ho].
  assert ("/forms/7/submissions" = u) as Hu.
  { pose proof Ho as Ho'. vm_compute in Ho'. by injection Ho'. }
  eexists o, _, _. split; [exact Ho|]. split; [reflexivity|].
  split; [by rewrite Hu | exact Hp].
Defined.

(** ** More on [this.axiosInstance.request] *)

Lemma axiosInstance_request_S (env : Env) (fuel : nat)
    (config : RequestConfig) (w : World) :
  axiosInstance_request env (S fuel) config w =
    match request_interceptor env config w with
    | (Resolved config1, w1) =>
        match dispatchRequest env config1 w1 with
        | (Resolved r, w2) => Some (Resolved r, w2)
        | (Rejected e, w2) =>
            response_rejected env (axiosInstance_request env fuel) e w2
        end
    | (Rejected e, w1) =>
        response_rejected env (axiosInstance_request env fuel) e w1
    end.
Proof. reflexivity. Qed.

(** With an unexpired Credential the request interceptor only sets the
    header. *)
Lemma request_interceptor_valid (env : Env) (config : RequestConfig)
    (w : World) :
  missing_or_expired w = false ->
  exists t,
    token w = Some t
    /\ request_interceptor env config w
       = (Resolved (set_Authorization (bearer (access_token t)) config), w).
Proof.
  intros M. unfold request_interceptor, ensureValidToken. rewrite M.
  unfold missing_or_expired in M.
  destruct (token w) as [t|]; [|discriminate]. eauto.
Qed.

(** What [dispatchRequest] rejects with passes through the response
    interceptor unless it is a 401 with a refresh token known. *)
Lemma response_rejected_passes (env : Env) request (e : Error) (w : World) :
  is_401 (error_status e) && Js.truthy (this_refresh_token w) = false ->
  response_rejected env request e w = Some (Rejected e, w).
Proof. intros H. unfold response_rejected. by rewrite H. Qed.

(** The outcome of [this.axiosInstance.request]: a response with a 2xx
    status, the authentication failure of the token manager, or the
    AxiosError of a request that is the caller's up to its header. *)
Lemma axiosInstance_request_outcome (env : Env) (fuel : nat) :
  forall (config : RequestConfig) (w : World) r w',
    axiosInstance_request env fuel config w = Some (r, w') ->
    match r with
    | Resolved resp => validateStatus (status resp) = true
    | Rejected e =>
        e = AuthenticationFailure
        \/ exists st c,
            e = AxiosError st (Some c)
            /\ same_request config c
            /\ forall s, st = Some s -> validateStatus s = false
    end.
Proof.
  induction fuel as [|fuel IH]; intros config w r w' H; [discriminate|].
  rewrite axiosInstance_request_S in H.
  destruct (request_interceptor env config w) as [[config1|e] w1] eqn:Hi.
  - destruct (request_interceptor_resolved _ _ _ _ _ Hi) as (_ & t & _ & ->).
    set (config1 := set_Authorization (bearer (access_token t)) config) in *.
    assert (forall st,
               (forall s, st = Some s -> validateStatus s = false) ->
               response_rejected env (axiosInstance_request env fuel)
                 (AxiosError st (Some config1))
                 (network env (ApiSend config1) w1) = Some (r, w') ->
               match r with
               | Resolved resp => validateStatus (status resp) = true
               | Rejected e =>
                   e = AuthenticationFailure
                   \/ exists st c,
                       e = AxiosError st (Some c)
                       /\ same_request config c
                       /\ forall s, st = Some s -> validateStatus s = false
               end) as Hrej.
    { intros st Hst. unfold response_rejected.
      destruct (is_401 _ && Js.truthy _).
      - destruct (refreshToken env _) as [[u|e] w3] eqn:Hr; simpl.
        + intros Hrec. specialize (IH _ _ _ _ Hrec).
          destruct r as [resp|e]; [done|].
          destruct IH as [-> | (st' & c & -> & (? & ? & ? & ?) & ?)];
            [by left | right].
          exists st', c. split; [done|]. split; [|done].
          repeat split; simpl in *; congruence.
        + intros [= <- <-]. right. exists st, config1. done.
      - intros [= <- <-]. right. exists st, config1. done. }
    unfold dispatchRequest in H.
    destruct (api env (length (trace w1)) config1) as [|s b].
    + apply (Hrej None); [discriminate | done].
    + destruct (validateStatus s) eqn:V.
      * injection H as <- <-. done.
      * apply (Hrej (Some s)); [by intros ? [= <-] | done].
  - pose proof (request_interceptor_rejected _ _ _ _ _ Hi) as He.
    destruct (ensureValidToken_rejected _ _ _ _ He) as (-> & _).
    rewrite response_rejected_no_status in H by done.
    injection H as <- <-. by left.
Qed.

(** Once the promise has settled, more fuel changes nothing. *)
Lemma axiosInstance_request_more_fuel (env : Env) (fuel : nat) :
  forall (config : RequestConfig) (w : World) res,
    axiosInstance_request env fuel config w = Some res ->
    forall k, axiosInstance_request env (fuel + k) config w = Some res.
Proof.
  induction fuel as [|fuel IH]; intros config w res H k; [discriminate|].
  rewrite Nat.add_succ_l, axiosInstance_request_S.
  rewrite axiosInstance_request_S in H.
  assert (forall e v,
             response_rejected env (axiosInstance_request env fuel) e v
             = Some res ->
             response_rejected env (axiosInstance_request env (fuel + k)) e v
             = Some res) as Hrej.
  { intros e v. unfold response_rejected.
    destruct (is_401 _ && Js.truthy _); [|done].
    destruct (refreshToken env v) as [[u|e'] v1]; [|done].
    destruct (error_config e); [|done]. intros Hrec. by apply IH. }
  destruct (request_interceptor env config w) as [[config1|e] w1].
  - destruct (dispatchRequest env config1 w1) as [[resp|e] w2]; [done|].
    by apply Hrej.
  - by apply Hrej.
Qed.

Lemma token_posts_snoc_post (l : list Event) (g : Grant) :
  token_posts (l ++ [TokenPost g]) = token_posts l ++ [g].
Proof. unfold token_posts. by rewrite omap_app. Qed.

Lemma token_posts_snoc_send (l : list Event) (c : RequestConfig) :
  token_posts (l ++ [ApiSend c]) = token_posts l.
Proof. unfold token_posts. rewrite omap_app. simpl. by rewrite app_nil_r. Qed.

(** The grants [ensureValidToken] posts. *)
Lemma ensureValidToken_posts (env : Env) (w : World) r w' :
  ensureValidToken env w = (r, w') ->
  exists gs,
    trace w' = trace w ++ (TokenPost <$> gs)
    /\ (missing_or_expired w = false /\ gs = []
        \/ missing_or_expired w = true
           /\ (Js.truthy (this_refresh_token w) = false
               /\ gs = [client_credentials]
               \/ exists rt,
                   this_refresh_token w = Some rt
                   /\ (gs = [refresh_token_grant rt]
                       \/ gs = [refresh_token_grant rt; client_credentials]))).
Proof.
  intros H.
  destruct (ensureValidToken_cases _ _ _ _ H)
    as [(M & _ & ->) | [(M & T & G) | [(M & rt & d & Hu & _ & _ & ->)
                     | (M & rt & Hu & _ & G)]]].
  - exists []. simpl. rewrite app_nil_r. split; [done | by left].
  - destruct (getAccessToken_outcome _ _ _ _ G) as (Ht & _).
    exists [client_credentials]. split; [done|]. right. split; [done|].
    by left.
  - exists [refresh_token_grant rt]. split; [done|]. right. split; [done|].
    right. exists rt. split; [by apply usable_eq | by left].
  - destruct (getAccessToken_outcome _ _ _ _ G) as (Ht & _).
    exists [refresh_token_grant rt; client_credentials].
    rewrite Ht, trace_network, <- app_assoc. split; [done|].
    right. split; [done|]. right. exists rt.
    split; [by apply usable_eq | by right].
Qed.

(** X1: whatever [this.axiosInstance.request] puts on the wire, first
    attempt or replay, has the method, URL, query parameters and body of
    the caller's request; only the [Authorization] header is set, also
    over one the caller supplied. *)
Theorem replay_resends_the_same_request (env : Env) (fuel : nat)
    (config : RequestConfig) (w : World) r w' :
  axiosInstance_request env fuel config w = Some (r, w') ->
  exists cs,
    api_sends (trace w') = api_sends (trace w) ++ cs
    /\ Forall (fun c =>
                 method c = method config /\ url c = url config
                 /\ params c = params config /\ data c = data config
                 /\ exists a, Authorization c = Some ("Bearer " +:+ Js.interp a))
              cs.
Proof.
  intros H.
  destruct (axiosInstance_request_sends _ _ _ _ _ _ H) as (cs & Hcs & Hall & _).
  exists cs. split; [done|].
  eapply Forall_impl; [exact Hall|].
  intros c ((? & ? & ? & ?) & ?). done.
Qed.

Lemma replay_resends_the_same_request_witness :
  exists w' cs,
    axiosInstance_request
      (Scenario.env_of (Some Scenario.A2) Cases.api_401_once) 2
      Cases.post_contact (Scenario.with_R1 10000000 0)
    = Some (Resolved {| status := 200; body := "{}" |}, w')
    /\ api_sends (trace w') = cs
    /\ length cs = 2%nat
    /\ Forall (fun c => method c = POST /\ url c = "/contacts/new"
                        /\ data c = Some "{}"
                        /\ Authorization c <> Some "Basic abc") cs.
Proof.
  destruct (replay_resends_the_same_request
              (Scenario.env_of (Some Scenario.A2) Cases.api_401_once) 2
              Cases.post_contact (Scenario.with_R1 10000000 0) _ _ eq_refl)
    as (cs & Hcs & Hall).
  vm_compute in Hcs. subst cs.
  eexists _, _. split; [reflexivity|]. split; [reflexivity|].
  split; [reflexivity|].
  eapply Forall_impl; [exact Hall|].
  intros c (? & ? & _ & ? & a & Ha). repeat split; try done.
  rewrite Ha. discriminate.
Defined.

(** X2: [this.axiosInstance.request] resolves only with a 2xx response.
    It rejects only with the authentication failure of the token manager
    or with an AxiosError that has no status or a status outside 2xx and
    whose [config] is the caller's request up to the header. *)
Theorem request_settles_with_2xx_or_error (env : Env) (fuel : nat)
    (config : RequestConfig) (w : World) r w' :
  axiosInstance_request env fuel config w = Some (r, w') ->
  (exists resp, r = Resolved resp /\ validateStatus (status resp) = true)
  \/ r = Rejected AuthenticationFailure
  \/ (exists st c,
         r = Rejected (AxiosError st (Some c))
         /\ same_request config c
         /\ (st = None \/ exists s, st = Some s /\ validateStatus s = false)).
Proof.
  intros H. pose proof (axiosInstance_request_outcome _ _ _ _ _ _ H) as Ho.
  destruct r as [resp|e].
  - left. eauto.
  - right. destruct Ho as [-> | (st & c & -> & Hs & Hst)]; [by left|].
    right. exists st, c. split; [done|]. split; [done|].
    destruct st as [s|]; [right | by left]. exists s. split; [done | by apply Hst].
Qed.

Lemma request_settles_with_2xx_or_error_witness :
  exists w',
    axiosInstance_request
      (Scenario.env_of (Some Scenario.A1) Cases.api_500) 1
      Scenario.get_contacts (init 0)
    = Some (Rejected
              (AxiosError (Some 500)
                 (Some (set_Authorization "Bearer A1" Scenario.get_contacts))),
            w')
    /\ same_request Scenario.get_contacts
         (set_Authorization "Bearer A1" Scenario.get_contacts).
Proof.
  eexists. split; [reflexivity|].
  destruct (request_settles_with_2xx_or_error
              (Scenario.env_of (Some Scenario.A1) Cases.api_500) 1
              Scenario.get_contacts (init 0) _ _ eq_refl)
    as [(resp & Hr & _) | [Hr | (st & c & Hr & Hs & _)]];
    [discriminate Hr | discriminate Hr |].
  injection Hr as _ <-. exact Hs.
Defined.

(** X3: a failure other than a 401, that is no response at all or a
    4xx or 5xx status other than 401, is not replayed, refresh token or
    not: the request went out once, the token endpoint is not contacted,
    and the caller gets that failure. (What the transport does with a 3xx
    answer is left out.) *)
Theorem other_failures_are_not_replayed (env : Env) (fuel : nat)
    (config config1 : RequestConfig) (w w1 : World) :
  request_interceptor env config w = (Resolved config1, w1) ->
  (api env (length (trace w1)) config1 = NetworkError
   \/ exists s b, api env (length (trace w1)) config1 = Reply s b
                  /\ 400 <= s /\ s <> 401) ->
  exists st,
    axiosInstance_request env (S fuel) config w
    = Some (Rejected (AxiosError st (Some config1)),
            network env (ApiSend config1) w1)
    /\ st = match api env (length (trace w1)) config1 with
            | NetworkError => None
            | Reply s _ => Some s
            end
    /\ st <> Some 401
    /\ trace (network env (ApiSend config1) w1) = trace w1 ++ [ApiSend config1]
    /\ token (network env (ApiSend config1) w1) = token w1.
Proof.
  intros Hi Ha. rewrite axiosInstance_request_S, Hi. unfold dispatchRequest.
  destruct Ha as [-> | (s & b & -> & Hge & Hs)].
  - exists None. rewrite response_rejected_no_status by done. done.
  - exists (Some s).
    assert (validateStatus s = false) as V.
    { unfold validateStatus. destruct (Z.ltb_spec s 300); [lia|].
      apply andb_false_r. }
    rewrite V.
    rewrite response_rejected_passes.
    + split; [done|]. split; [done|]. split; [congruence | done].
    + simpl. destruct (Z.eqb_spec s 401); [contradiction | done].
Qed.

Lemma other_failures_are_not_replayed_witness :
  exists w',
    axiosInstance_request
      (Scenario.env_of (Some Scenario.A2) Cases.api_500) 3
      Scenario.get_contacts (Scenario.with_R1 10000000 0)
    = Some (Rejected
              (AxiosError (Some 500)
                 (Some (set_Authorization "Bearer A0" Scenario.get_contacts))),
            w')
    /\ trace w'
       = [ApiSend (set_Authorization "Bearer A0" Scenario.get_contacts)].
Proof.
  destruct (other_failures_are_not_replayed
              (Scenario.env_of (Some Scenario.A2) Cases.api_500) 2
              Scenario.get_contacts
              (set_Authorization "Bearer A0" Scenario.get_contacts)
              (Scenario.with_R1 10000000 0) (Scenario.with_R1 10000000 0)
              eq_refl)
    as (st & H & Hst & _).
  { right. exists 500, "". split; [reflexivity|]. split; lia. }
  simpl in Hst. subst st.
  eexists. split; [exact H | reflexivity].
Defined.

(** X4: with an unexpired Credential and a 2xx answer, a request is one
    network round trip: nothing is posted to the token endpoint, the
    Credential is untouched, the request carries [Bearer] and the stored
    access token, and the caller gets the response. *)
Theorem valid_token_single_round_trip (env : Env) (fuel : nat)
    (config : RequestConfig) (w : World) (t : OAuth2Token) (e s : Z)
    (b : string) :
  token w = Some t -> expires_at t = Some e -> now w < e ->
  api env (length (trace w))
      (set_Authorization (bearer (access_token t)) config) = Reply s b ->
  validateStatus s = true ->
  axiosInstance_request env (S fuel) config w
  = Some (Resolved {| status := s; body := b |},
          {| token := token w;
             now := now w + Z.of_N (latency env (length (trace w)));
             trace := trace w
                      ++ [ApiSend (set_Authorization
                                     (bearer (access_token t)) config)] |}).
Proof.
  intros Ht He Hlt Ha V.
  assert (missing_or_expired w = false) as M.
  { unfold missing_or_expired. rewrite Ht, He.
    by destruct (Z.leb_spec e (now w)); [lia|]. }
  destruct (request_interceptor_valid env config w M) as (t' & Ht' & Hi).
  rewrite Ht in Ht'. injection Ht' as <-.
  rewrite axiosInstance_request_S, Hi. unfold dispatchRequest.
  by rewrite Ha, V.
Qed.

Lemma valid_token_single_round_trip_witness :
  axiosInstance_request
    (Scenario.env_of (Some Scenario.A1) Scenario.api_ok) 1
    Scenario.get_contacts (Scenario.with_R1 10000000 0)
  = Some (Resolved {| status := 200; body := "{}" |},
          {| token := token (Scenario.with_R1 10000000 0);
             now := 25;
             trace := [ApiSend (set_Authorization "Bearer A0"
                                  Scenario.get_contacts)] |}).
Proof.
  apply (valid_token_single_round_trip
           (Scenario.env_of (Some Scenario.A1) Scenario.api_ok) 0
           Scenario.get_contacts (Scenario.with_R1 10000000 0)
           _ 10000000 200 "{}" eq_refl eq_refl);
    [simpl; lia | reflexivity | reflexivity].
Defined.

Lemma dispatchRequest_401 (env : Env) (config : RequestConfig) (w : World)
    (b : string) :
  api env (length (trace w)) config = Reply 401 b ->
  dispatchRequest env config w
  = (Rejected (AxiosError (Some 401) (Some config)),
     network env (ApiSend config) w).
Proof. unfold dispatchRequest. by intros ->. Qed.

(** The replay step of the response interceptor. *)
Lemma response_rejected_refreshed (env : Env) request
    (config1 : RequestConfig) (w w3 : World) :
  Js.truthy (this_refresh_token w) = true ->
  refreshToken env w = (Resolved tt, w3) ->
  response_rejected env request (AxiosError (Some 401) (Some config1)) w
  = request (set_Authorization (bearer (this_access_token w3)) config1) w3.
Proof.
  intros Ht Hr. unfold response_rejected.
  cbn [error_status is_401 error_config].
  change (401 =? 401) with true. by rewrite Ht, Hr.
Qed.

(** X5: a 401 with a refresh token known, followed by a successful
    refresh that leaves an unexpired Credential: the request is replayed
    with the refreshed access token, and unless the replay is itself
    answered 401 with a refresh token still known, the outcome of the
    replay (its response, or its failure instead of the first 401) is
    what the caller gets, after exactly two requests. *)
Theorem replay_outcome_reaches_caller (env : Env) (fuel : nat)
    (config config1 : RequestConfig) (w w1 w3 : World) (b : string) :
  request_interceptor env config w = (Resolved config1, w1) ->
  api env (length (trace w1)) config1 = Reply 401 b ->
  Js.truthy (this_refresh_token w1) = true ->
  refreshToken env (network env (ApiSend config1) w1) = (Resolved tt, w3) ->
  missing_or_expired w3 = false ->
  ((forall b', api env (length (trace w3))
                 (set_Authorization (bearer (this_access_token w3)) config1)
               <> Reply 401 b')
   \/ Js.truthy (this_refresh_token w3) = false) ->
  axiosInstance_request env (S (S fuel)) config w
  = Some (dispatchRequest env
            (set_Authorization (bearer (this_access_token w3)) config1) w3)
  /\ same_request config
       (set_Authorization (bearer (this_access_token w3)) config1)
  /\ api_sends
       (trace (dispatchRequest env
                 (set_Authorization (bearer (this_access_token w3)) config1)
                 w3).2)
     = api_sends (trace w1)
       ++ [config1; set_Authorization (bearer (this_access_token w3)) config1].
Proof.
  intros Hi Ha Ht Hr M Hrep.
  set (config2 := set_Authorization (bearer (this_access_token w3)) config1).
  destruct (request_interceptor_resolved _ _ _ _ _ Hi) as (_ & t1 & _ & Hc1).
  split; [|split].
  - rewrite axiosInstance_request_S, Hi, (dispatchRequest_401 _ _ _ _ Ha).
    rewrite (response_rejected_refreshed _ _ _ _ w3)
      by (by rewrite ?refresh_token_network).
    fold config2. rewrite axiosInstance_request_S.
    destruct (request_interceptor_valid env config2 w3 M) as (t3 & Ht3 & ->).
    assert (set_Authorization (bearer (access_token t3)) config2 = config2)
      as ->.
    { unfold config2, this_access_token. by rewrite Ht3. }
    unfold dispatchRequest.
    destruct (api env (length (trace w3)) config2) as [|s b2] eqn:Ha2.
    + by rewrite response_rejected_no_status.
    + destruct (validateStatus s); [done|].
      rewrite response_rejected_passes; [done|].
      rewrite refresh_token_network. cbn [error_status is_401].
      destruct Hrep as [Hne | ->]; [|by rewrite andb_false_r].
      destruct (Z.eqb_spec s 401) as [->|]; [|done].
      by destruct (Hne b2).
  - subst config1. done.
  - destruct (refreshToken_outcome _ _ _ _ Hr) as (Hs & _).
    rewrite trace_network, api_sends_snoc_send in Hs.
    unfold dispatchRequest. fold config2.
    assert (forall o : Outcome Response,
               api_sends (trace (o, network env (ApiSend config2) w3).2)
               = api_sends (trace w1) ++ [config1; config2]) as Hn.
    { intros o. simpl. rewrite api_sends_snoc_send, Hs, <- app_assoc. done. }
    destruct (api env (length (trace w3)) config2) as [|s b2];
      [apply Hn|]. destruct (validateStatus s); apply Hn.
Qed.

Lemma replay_outcome_reaches_caller_witness :
  exists w',
    axiosInstance_request
      (Scenario.env_of (Some Scenario.A2) Cases.api_401_once) 2
      Scenario.get_contacts (Scenario.with_R1 10000000 0)
    = Some (Resolved {| status := 200; body := "{}" |}, w')
    /\ api_sends (trace w')
       = [set_Authorization "Bearer A0" Scenario.get_contacts;
          set_Authorization "Bearer A2" Scenario.get_contacts]
    /\ token_posts (trace w') = [refresh_token_grant "R1"].
Proof.
  destruct (replay_outcome_reaches_caller
              (Scenario.env_of (Some Scenario.A2) Cases.api_401_once) 0
              Scenario.get_contacts
              (set_Authorization "Bearer A0" Scenario.get_contacts)
              (Scenario.with_R1 10000000 0) (Scenario.with_R1 10000000 0)
              _ "" eq_refl eq_refl eq_refl eq_refl eq_refl)
    as (H & _ & Hs).
  { left. intros b'. discriminate. }
  eexists. split; [exact H|]. split; [exact Hs | reflexivity].
Defined.

Lemma usable_is_truthy (v : option string) (s : string) :
  Js.usable v = Some s -> Js.truthy v = true.
Proof. unfold Js.usable. by destruct (Js.truthy v). Qed.

(** X6: a 401 with a refresh token known, but both the refresh and the
    fallback acquisition fail: the [catch] of the response interceptor
    swallows the authentication failure, nothing is replayed, the
    Credential stays, and the caller gets the first 401. *)
Theorem failed_refresh_keeps_first_401 (env : Env) (fuel : nat)
    (config config1 : RequestConfig) (w w1 : World) (b rt : string) :
  request_interceptor env config w = (Resolved config1, w1) ->
  api env (length (trace w1)) config1 = Reply 401 b ->
  Js.usable (this_refresh_token w1) = Some rt ->
  granted env (length (trace w1 ++ [ApiSend config1])) (refresh_token_grant rt)
  = None ->
  granted env (length ((trace w1 ++ [ApiSend config1])
                       ++ [TokenPost (refresh_token_grant rt)]))
          client_credentials = None ->
  exists w',
    axiosInstance_request env (S fuel) config w
    = Some (Rejected (AxiosError (Some 401) (Some config1)), w')
    /\ token w' = token w1
    /\ trace w' = trace w1 ++ [ApiSend config1;
                               TokenPost (refresh_token_grant rt);
                               TokenPost client_credentials].
Proof.
  intros Hi Ha Hu G1 G2.
  set (w2 := network env (ApiSend config1) w1).
  assert (refreshToken env w2
          = (Rejected AuthenticationFailure,
             network env (TokenPost client_credentials)
               (network env (TokenPost (refresh_token_grant rt)) w2))) as Hr.
  { rewrite (refreshToken_refused env w2 rt) by done.
    by rewrite getAccessToken_refused. }
  eexists. split; [|split].
  - rewrite axiosInstance_request_S, Hi, (dispatchRequest_401 _ _ _ _ Ha).
    fold w2. unfold response_rejected. cbn [error_status is_401].
    change (401 =? 401) with true.
    assert (Js.truthy (this_refresh_token w2) = true) as ->.
    { unfold w2. rewrite refresh_token_network. by eapply usable_is_truthy. }
    by rewrite Hr.
  - done.
  - simpl. by rewrite <- !app_assoc.
Qed.

Lemma failed_refresh_keeps_first_401_witness :
  exists w',
    axiosInstance_request Scenario.env_revoked 5 Scenario.get_contacts
      (Scenario.with_R1 10000000 0)
    = Some (Rejected
              (AxiosError (Some 401)
                 (Some (set_Authorization "Bearer A0" Scenario.get_contacts))),
            w')
    /\ token w' = token (Scenario.with_R1 10000000 0)
    /\ token_posts (trace w')
       = [refresh_token_grant "R1"; client_credentials].
Proof.
  destruct (failed_refresh_keeps_first_401 Scenario.env_revoked 4
              Scenario.get_contacts
              (set_Authorization "Bearer A0" Scenario.get_contacts)
              (Scenario.with_R1 10000000 0) (Scenario.with_R1 10000000 0)
              "" "R1" eq_refl eq_refl eq_refl eq_refl eq_refl)
    as (w' & H & Ht & Htr).
  exists w'. split; [exact H|]. split; [exact Ht|]. rewrite Htr. reflexivity.
Defined.

Lemma persistent_401_never_settles_witness :
  axiosInstance_request
    (Scenario.env_of (Some Scenario.A2) Scenario.api_401) 64
    Scenario.get_contacts (Scenario.with_R1 10000000 0) = None.
Proof.
  apply (persistent_401_never_settles
           (Scenario.env_of (Some Scenario.A2) Scenario.api_401)).
  - intros n c. by exists "".
  - intros n g. by exists Scenario.A2.
  - reflexivity.
Defined.

(** X8: the Credential stored by the fallback acquisition takes its
    refresh token from the acquisition response alone: the one known
    before is dropped. When that response has none, a later 401 is handed
    to the caller without refresh or replay. *)
Theorem fallback_credential_drops_refresh_token (env : Env) (w : World)
    (rt : string) (d : TokenData) :
  Js.usable (this_refresh_token w) = Some rt ->
  granted env (length (trace w)) (refresh_token_grant rt) = None ->
  granted env (length (trace w ++ [TokenPost (refresh_token_grant rt)]))
          client_credentials = Some d ->
  exists w',
    refreshToken env w = (Resolved tt, w')
    /\ this_refresh_token w' = data_refresh_token d
    /\ (Js.truthy (data_refresh_token d) = false ->
        forall request error,
          response_rejected env request error w' = Some (Rejected error, w')).
Proof.
  intros Hu G1 G2.
  rewrite (refreshToken_refused _ _ _ Hu G1).
  rewrite (getAccessToken_granted env _ d) by done.
  eexists. split; [reflexivity|]. split; [done|].
  intros Hf request error. apply response_rejected_passes.
  unfold this_refresh_token. simpl. rewrite Hf. apply andb_false_r.
Qed.

Lemma fallback_credential_drops_refresh_token_witness :
  exists w',
    refreshToken (Scenario.env_refresh_broken Scenario.A3)
                 (Scenario.with_R1 0 5) = (Resolved tt, w')
    /\ this_refresh_token (Scenario.with_R1 0 5) = Some "R1"
    /\ this_refresh_token w' = None.
Proof.
  destruct (fallback_credential_drops_refresh_token
              (Scenario.env_refresh_broken Scenario.A3)
              (Scenario.with_R1 0 5) "R1" Scenario.A3
              eq_refl eq_refl eq_refl)
    as (w' & H & Hr & _).
  exists w'. split; [exact H|]. split; [reflexivity | exact Hr].
Defined.

(** X9: a Credential acquired from a body without [expires_in] has the
    expiry [NaN]; [Date.now() >= NaN] is false, so [ensureValidToken]
    treats it as unexpired however much time passes and never goes back
    to the token endpoint. *)
Theorem missing_expires_in_never_renewed (env : Env) (w : World)
    (d : TokenData) :
  granted env (length (trace w)) client_credentials = Some d ->
  data_expires_in d = None ->
  exists w',
    getAccessToken env w = (Resolved tt, w')
    /\ forall delay : N,
        ensureValidToken env (tick delay w') = (Resolved tt, tick delay w').
Proof.
  intros G He. rewrite (getAccessToken_granted _ _ _ G).
  eexists. split; [reflexivity|]. intros delay.
  unfold ensureValidToken, missing_or_expired. simpl.
  unfold expiry. by rewrite He.
Qed.

Lemma missing_expires_in_never_renewed_witness :
  exists w',
    getAccessToken (Scenario.env_of (Some Cases.no_expiry) Scenario.api_ok)
                   (init 0) = (Resolved tt, w')
    /\ ensureValidToken (Scenario.env_of (Some Cases.no_expiry) Scenario.api_ok)
         (tick 86400000 w') = (Resolved tt, tick 86400000 w').
Proof.
  destruct (missing_expires_in_never_renewed
              (Scenario.env_of (Some Cases.no_expiry) Scenario.api_ok)
              (init 0) Cases.no_expiry eq_refl eq_refl)
    as (w' & H & Hn).
  exists w'. split; [exact H | apply Hn].
Defined.

(** X10: after a call of [ensureValidToken] that returned, against a
    token endpoint that grants lifetimes above the margin, further calls
    do nothing and send nothing as long as the clock is before the stored
    expiry; from the expiry instant on, the next call posts to the token
    endpoint. *)
Theorem no_token_traffic_until_expiry (env : Env) (w : World) u w' :
  outlives_margin env ->
  numeric_expiry w ->
  ensureValidToken env w = (Resolved u, w') ->
  exists t e,
    token w' = Some t /\ expires_at t = Some e /\ now w' < e
    /\ (forall delay : N,
          now w' + Z.of_N delay < e ->
          ensureValidToken env (tick delay w') = (Resolved tt, tick delay w'))
    /\ (forall (delay : N) r w'',
          e <= now w' + Z.of_N delay ->
          ensureValidToken env (tick delay w') = (r, w'') ->
          exists g rest, trace w'' = trace w' ++ TokenPost g :: rest).
Proof.
  intros Henv Hnum H.
  destruct (ensureValidToken_step _ _ _ _ Henv Hnum H)
    as (_ & [(_ & t & e & Ht & He & Hlt) | (? & _)]); [|discriminate].
  exists t, e. split; [done|]. split; [done|]. split; [done|]. split.
  - intros delay Hd. unfold ensureValidToken, missing_or_expired. simpl.
    rewrite Ht, He. by destruct (Z.leb_spec e (now w' + Z.of_N delay)); [lia|].
  - intros delay r w'' Hd Hc.
    destruct (ensureValidToken_posts _ _ _ _ Hc) as (gs & Htr & Hgs).
    simpl in Htr.
    assert (missing_or_expired (tick delay w') = true) as M.
    { unfold missing_or_expired. simpl. rewrite Ht, He.
      by destruct (Z.leb_spec e (now w' + Z.of_N delay)); [|lia]. }
    destruct Hgs as [(M' & _) | (_ & [(_ & ->) | (rt & _ & [-> | ->])])];
      [congruence | | |]; rewrite Htr; simpl; eauto.
Qed.

Lemma no_token_traffic_until_expiry_witness :
  exists w',
    ensureValidToken (Scenario.env_of (Some Scenario.A1) Scenario.api_ok)
                     (init 0) = (Resolved tt, w')
    /\ ensureValidToken (Scenario.env_of (Some Scenario.A1) Scenario.api_ok)
         (tick 3539999 w') = (Resolved tt, tick 3539999 w')
    /\ exists r w'',
        ensureValidToken (Scenario.env_of (Some Scenario.A1) Scenario.api_ok)
          (tick 3540000 w') = (r, w'')
        /\ trace w'' = trace w' ++ [TokenPost client_credentials].
Proof.
  assert (outlives_margin
            (Scenario.env_of (Some Scenario.A1) Scenario.api_ok)) as Henv.
  { intros n g d0 G. injection G as <-. exists 3600.
    split; [reflexivity | lia]. }
  assert (numeric_expiry (init 0)) as Hnum by (intros t; discriminate).
  destruct (no_token_traffic_until_expiry
              (Scenario.env_of (Some Scenario.A1) Scenario.api_ok)
              (init 0) tt _ Henv Hnum eq_refl)
    as (t & e & Ht & He & _ & Hq & _).
  eexists. split; [reflexivity|]. split.
  - apply Hq. vm_compute in Ht. injection Ht as <-.
    vm_compute in He. injection He as <-. vm_compute. reflexivity.
  - eexists _, _. split; reflexivity.
Defined.

Lemma usable_nonempty (v : option string) (s : string) :
  Js.usable v = Some s -> s <> "".
Proof.
  unfold Js.usable, Js.truthy. destruct v as [s'|]; [|discriminate].
  destruct (String.eqb_spec s' ""); simpl; [discriminate|].
  by intros [= <-].
Qed.

(** X11: one call of [ensureValidToken] posts at most two grants and
    never an API request: nothing while the Credential is unexpired; the
    client-credentials grant alone when no refresh token is known; else
    the refresh grant with the stored refresh token, followed by the
    client-credentials grant only when it throws. *)
Theorem token_manager_posts_at_most_twice (env : Env) (w : World) r w' :
  ensureValidToken env w = (r, w') ->
  api_sends (trace w') = api_sends (trace w)
  /\ exists gs,
      trace w' = trace w ++ (TokenPost <$> gs)
      /\ (length gs <= 2)%nat
      /\ (gs = [] <-> missing_or_expired w = false)
      /\ (forall g, refresh_token_grant g ∈ gs ->
                    this_refresh_token w = Some g /\ g <> ""
                    /\ gs !! 0%nat = Some (refresh_token_grant g))
      /\ (forall g, gs = [refresh_token_grant g] -> r = Resolved tt).
Proof.
  intros H. split.
  - destruct r as [u|e].
    + by destruct (ensureValidToken_resolved _ _ _ _ H).
    + by destruct (ensureValidToken_rejected _ _ _ _ H) as (_ & _ & ? & _).
  - destruct (ensureValidToken_cases _ _ _ _ H)
      as [(M & -> & ->) | [(M & T & G) | [(M & rt & d & Hu & _ & -> & ->)
                       | (M & rt & Hu & _ & G)]]].
    + exists []. simpl. rewrite app_nil_r.
      split; [done|]. split; [lia|]. split; [done|]. split; [|done].
      intros g Hin. by apply elem_of_nil in Hin.
    + destruct (getAccessToken_outcome _ _ _ _ G) as (Ht & _).
      exists [client_credentials]. split; [done|]. split; [simpl; lia|].
      split; [split; [done | congruence]|]. split; [|done].
      intros g Hin. apply list_elem_of_singleton in Hin. discriminate.
    + exists [refresh_token_grant rt]. split; [done|]. split; [simpl; lia|].
      split; [split; [done | congruence]|]. split; [|done].
      intros g Hin. apply list_elem_of_singleton in Hin.
      injection Hin as ->.
      split; [by apply usable_eq|]. split; [by eapply usable_nonempty | done].
    + destruct (getAccessToken_outcome _ _ _ _ G) as (Ht & _).
      exists [refresh_token_grant rt; client_credentials].
      rewrite Ht, trace_network, <- app_assoc.
      split; [done|]. split; [simpl; lia|].
      split; [split; [done | congruence]|]. split; [|done].
      intros g Hin. apply elem_of_cons in Hin as [Hin | Hin].
      * injection Hin as ->.
        split; [by apply usable_eq|].
        split; [by eapply usable_nonempty | done].
      * apply list_elem_of_singleton in Hin. discriminate.
Qed.

Lemma token_manager_posts_at_most_twice_witness :
  exists gs,
    trace (ensureValidToken (Scenario.env_refresh_broken Scenario.A3)
                            (Scenario.with_R1 0 5)).2
    = TokenPost <$> gs
    /\ gs = [refresh_token_grant "R1"; client_credentials].
Proof.
  destruct (token_manager_posts_at_most_twice
              (Scenario.env_refresh_broken Scenario.A3)
              (Scenario.with_R1 0 5) _ _ eq_refl)
    as (_ & gs & Htr & _).
  exists gs. split; [exact Htr|].
  vm_compute in Htr. destruct gs as [|g1 [|g2 [|g3 gs]]]; try discriminate.
  by injection Htr as <- <-.
Defined.

(** ** Query parameters of all list handlers *)











Lemma later_call_tool_is_get (t : Later.Tool) (args : option Later.Args) :
  (exists u p,
      p !! "limit" = limit_param (Later.opt args Later.limit)
      /\ forall env fuel w,
          Later.call_tool env fuel t args w = axiosInstance_get env fuel u p w)
  \/ (args = None /\ Later.destructures t = true
      /\ forall env fuel w,
          Later.call_tool env fuel t args w = Some (Rejected TypeError, w)).
Proof.
  destruct t; simpl;
    unfold Later.getCampaignContacts, Later.listAssets, Later.listPages,
      Later.list_published, Later.listSms, Later.listTags, Later.list_search,
      Later.listCompanies, Later.getContactNotes, Later.listCategories,
      Later.listStages, Later.listContactFields, Later.listWebhooks,
      Later.listReports, Later.list_limit;
    try (left; eexists _, _; split; [|reflexivity]; limit_lookup);
    (destruct args as [a|]; [left | by right]);
    (eexists _, _; split; [|reflexivity]); simpl; limit_lookup.
Qed.

(** X13: each of the twelve list handlers added in the later version is
    a GET whose [limit] parameter is [min(limit, 200)] for a non-zero
    [limit] and which has no [limit] parameter otherwise; the schema
    defaults ([limit] 100, [start] 0) are not applied. Once a token is
    established that request goes on the wire, and with a 2xx answer the
    call settles after this one request; every request of a call that
    settles carries the same [limit]. Only a destructuring handler called
    without arguments sends nothing: it throws a TypeError. *)
Theorem later_limit_is_capped (env : Env) (fuel : nat) (t : Later.Tool)
    (args : option Later.Args) (w : World) :
  (args = None -> Later.destructures t = true ->
   Later.call_tool env fuel t args w = Some (Rejected TypeError, w))
  /\ (args <> None \/ Later.destructures t = false ->
      exists u p,
        (forall n, Later.opt args Later.limit = Some n -> n <> 0 ->
                   p !! "limit" = Some (VNum (Z.min n 200)))
        /\ (Later.opt args Later.limit = None
            \/ Later.opt args Later.limit = Some 0 ->
            p !! "limit" = None)
        /\ (forall u0 w1 s b,
              ensureValidToken env w = (Resolved u0, w1) ->
              api env (length (trace w1))
                  (set_Authorization (bearer (this_access_token w1))
                     {| method := GET; url := u; params := p; data := None;
                        Authorization := None |}) = Reply s b ->
              validateStatus s = true ->
              exists o,
                Later.call_tool env (S fuel) t args w
                = Some (o,
                        network env
                          (ApiSend
                             (set_Authorization
                                (bearer (this_access_token w1))
                                {| method := GET; url := u; params := p;
                                   data := None; Authorization := None |}))
                          w1))
        /\ (forall r w',
              Later.call_tool env fuel t args w = Some (r, w') ->
              exists cs,
                api_sends (trace w') = api_sends (trace w) ++ cs
                /\ Forall (fun c => url c = u /\ params c = p) cs
                /\ (forall u0 w1,
                      ensureValidToken env w = (Resolved u0, w1) ->
                      cs <> []))).
Proof.
  destruct (later_call_tool_is_get t args) as [(u & p & Hp & E) | (-> & Hd & E)].
  - split.
    + intros -> Hd. specialize (E env fuel w). revert E.
      destruct t; try discriminate Hd; simpl;
        unfold Later.getCampaignContacts, Later.getContactNotes; done.
    + intros _. exists u, p. split; [|split; [|split]].
      * intros n Hn Hz. rewrite Hp, Hn. unfold limit_param.
        by destruct (Z.eqb_spec n 0).
      * intros [Hn | Hn]; by rewrite Hp, Hn.
      * intros u0 w1 s b He Ha V. eexists. rewrite E.
        unfold axiosInstance_get.
        by rewrite (axiosInstance_request_resolves _ _ _ _ _ _ _ _ He Ha V).
      * intros r w' H. rewrite E in H. unfold axiosInstance_get in H.
        destruct (axiosInstance_request_sends _ _ _ _ _ _ H)
          as (cs & Hcs & Hall & Hne).
        exists cs. split; [done|]. split; [|done].
        eapply Forall_impl; [exact Hall|].
        by intros c ((_ & ? & ? & _) & _).
  - split.
    + intros _ _. apply E.
    + intros [Hn | Hf]; [done | congruence].
Qed.

Lemma later_limit_is_capped_witness :
  exists o c w',
    Later.call_tool (Scenario.env_of (Some Scenario.A1) Scenario.api_ok) 3
      Later.list_stages (Some (Cases.later_args (Some 500))) (init 0)
    = Some (o, w')
    /\ api_sends (trace w') = [c]
    /\ url c = "/stages"
    /\ params c !! "limit" = Some (VNum 200).
Proof.
  destruct (proj2 (later_limit_is_capped
                     (Scenario.env_of (Some Scenario.A1) Scenario.api_ok) 2
                     Later.list_stages (Some (Cases.later_args (Some 500)))
                     (init 0)))
    as (u & p & Hl & _ & Hsend & _); [by left|].
  pose proof (Hl 500 eq_refl ltac:(lia)) as Hp.
  destruct (Hsend tt _ 200 "{}" eq_refl eq_refl eq_refl) as [o Ho].
  assert ("/stages" = u) as Hu.
  { pose proof Ho as Ho'. vm_compute in Ho'. by injection Ho'. }
  eexists o, _, _. split; [exact Ho|]. split; [reflexivity|].
  split; [by rewrite Hu | exact Hp].
Defined.

(** ** What a tool call returns or throws *)

(** A request made once a token is established and answered with no
    response or with a 4xx or 5xx status other than 401. *)
Lemma axiosInstance_request_rejects (env : Env) (fuel : nat)
    (config : RequestConfig) (w : World) u0 w1 (st : option Z) :
  ensureValidToken env w = (Resolved u0, w1) ->
  (api env (length (trace w1))
       (set_Authorization (bearer (this_access_token w1)) config)
   = NetworkError /\ st = None
   \/ exists s b,
       api env (length (trace w1))
           (set_Authorization (bearer (this_access_token w1)) config)
       = Reply s b /\ 400 <= s /\ s <> 401 /\ st = Some s) ->
  axiosInstance_request env (S fuel) config w
  = Some (Rejected
            (AxiosError st
               (Some (set_Authorization (bearer (this_access_token w1))
                        config))),
          network env
            (ApiSend (set_Authorization (bearer (this_access_token w1)) config))
            w1).
Proof.
  intros He Ha. rewrite axiosInstance_request_S.
  unfold request_interceptor. rewrite He.
  destruct (ensureValidToken_resolved _ _ _ _ He) as (_ & t & Ht).
  unfold this_access_token in Ha |- *. rewrite Ht in Ha |- *.
  unfold dispatchRequest.
  destruct Ha as [(-> & ->) | (s & b & -> & Hge & Hne & ->)].
  - by rewrite response_rejected_no_status.
  - assert (validateStatus s = false) as ->.
    { unfold validateStatus. destruct (Z.ltb_spec s 300); [lia|].
      apply andb_false_r. }
    rewrite response_rejected_passes; [done|]. simpl.
    by destruct (Z.eqb_spec s 401).
Qed.

(** X14: a call of one of the eight list tools through the call
    handler. A call that settles returns a content built from a 2xx
    response with a non-null body, or a result marked [isError] whose text
    starts with [Mautic API Error: ], or throws an McpError: the
    authentication failure of the token manager, or the [InternalError]
    made of a TypeError; it throws nothing else. It does produce these:
    when the token manager throws, the call throws its authentication
    failure and sends nothing; undefined arguments to a destructuring
    handler give the [InternalError] without network traffic; once a token
    is established, one request goes out and a 2xx answer gives the
    content (the [InternalError] when the body is [null]), while no
    response or a 4xx or 5xx status other than 401 gives the [isError]
    result instead of a throw. *)
Theorem tool_call_throws_only_McpError (env : Env) (fuel : nat)
    (message to_string : Error -> string) (data_is_null : string -> bool)
    (t : ListTool) (args : option Args) (w : World) :
  (forall o w',
     CallToolRequest message to_string (list_tool data_is_null env fuel t)
       args w = Some (o, w') ->
     (exists r, o = Resolved (Content r)
                /\ validateStatus (status r) = true
                /\ data_is_null (body r) = false)
     \/ (exists st c,
            o = Resolved (ErrorContent
                            ("Mautic API Error: "
                             +:+ message (AxiosError st (Some c))))
            /\ (st = None \/ exists s, st = Some s /\ validateStatus s = false))
     \/ o = Rejected AuthenticationFailure
     \/ o = Rejected (McpError InternalError
                        ("Unexpected error: " +:+ to_string TypeError)))
  /\ (args = None -> destructures t = true ->
      CallToolRequest message to_string (list_tool data_is_null env fuel t)
        args w
      = Some (Rejected (McpError InternalError
                          ("Unexpected error: " +:+ to_string TypeError)), w))
  /\ (args <> None \/ destructures t = false ->
      (forall e w1,
         ensureValidToken env w = (Rejected e, w1) ->
         CallToolRequest message to_string
           (list_tool data_is_null env (S fuel) t) args w
         = Some (Rejected AuthenticationFailure, w1)
         /\ api_sends (trace w1) = api_sends (trace w))
      /\ exists u p,
          forall u0 w1,
            ensureValidToken env w = (Resolved u0, w1) ->
            let c := set_Authorization (bearer (this_access_token w1))
                       {| method := GET; url := u; params := p; data := None;
                          Authorization := None |} in
            (forall s b,
               api env (length (trace w1)) c = Reply s b ->
               validateStatus s = true ->
               CallToolRequest message to_string
                 (list_tool data_is_null env (S fuel) t) args w
               = Some (if data_is_null b
                       then Rejected
                              (McpError InternalError
                                 ("Unexpected error: " +:+ to_string TypeError))
                       else Resolved (Content {| status := s; body := b |}),
                       network env (ApiSend c) w1))
            /\ (forall s b,
                  api env (length (trace w1)) c = Reply s b ->
                  400 <= s -> s <> 401 ->
                  CallToolRequest message to_string
                    (list_tool data_is_null env (S fuel) t) args w
                  = Some (Resolved
                            (ErrorContent
                               ("Mautic API Error: "
                                +:+ message (AxiosError (Some s) (Some c)))),
                          network env (ApiSend c) w1))
            /\ (api env (length (trace w1)) c = NetworkError ->
                CallToolRequest message to_string
                  (list_tool data_is_null env (S fuel) t) args w
                = Some (Resolved
                          (ErrorContent
                             ("Mautic API Error: "
                              +:+ message (AxiosError None (Some c)))),
                        network env (ApiSend c) w1))).
Proof.
  split; [|split].
  - unfold CallToolRequest, list_tool, formatted. intros o w' H.
    destruct (call_tool env fuel t args w) as [[[r|e] w1]|] eqn:E;
      [| |discriminate].
    + assert (validateStatus (status r) = true) as V.
      { destruct (call_tool_get env fuel t args w)
          as [(u & p & _ & E') | (_ & E')]; rewrite E' in E; [|discriminate].
        apply (axiosInstance_request_outcome _ _ _ _ _ _ E). }
      destruct (data_is_null (body r)) eqn:N; injection H as <- <-.
      * right. right. by right.
      * left. by exists r.
    + injection H as <- <-.
      destruct (call_tool_get env fuel t args w)
        as [(u & p & _ & E') | (-> & E')]; rewrite E' in E.
      * destruct (axiosInstance_request_outcome _ _ _ _ _ _ E)
          as [-> | (st & c & -> & _ & Hst)].
        -- right. right. by left.
        -- right. left. exists st, c. split; [done|].
           destruct st as [s|]; [right | by left].
           exists s. split; [done | by apply Hst].
      * injection E as <- <-. right. right. by right.
  - intros -> Hd. unfold CallToolRequest, list_tool, formatted.
    destruct t; try discriminate Hd; reflexivity.
  - intros Hargs.
    destruct (call_tool_is_get t args) as [(u & p & _ & E) | (-> & Hd & _)];
      [|destruct Hargs; [done | congruence]].
    split.
    + intros e w1 He.
      destruct (ensureValidToken_rejected _ _ _ _ He) as (-> & _ & Hs & _).
      split; [|done].
      unfold CallToolRequest, list_tool, formatted. rewrite E.
      unfold axiosInstance_get. rewrite axiosInstance_request_S.
      unfold request_interceptor. rewrite He.
      by rewrite response_rejected_no_status.
    + exists u, p. intros u0 w1 He c. split; [|split].
      * intros s b Ha V. unfold CallToolRequest, list_tool, formatted.
        rewrite E. unfold axiosInstance_get.
        rewrite (axiosInstance_request_resolves _ _ _ _ _ _ _ _ He Ha V).
        simpl. by destruct (data_is_null b).
      * intros s b Ha Hge Hne. unfold CallToolRequest, list_tool, formatted.
        rewrite E. unfold axiosInstance_get.
        rewrite (axiosInstance_request_rejects _ _ _ _ _ _ (Some s) He);
          [done|]. right. by exists s, b.
      * intros Ha. unfold CallToolRequest, list_tool, formatted.
        rewrite E. unfold axiosInstance_get.
        rewrite (axiosInstance_request_rejects _ _ _ _ _ _ None He);
          [done|]. by left.
Qed.

Lemma tool_call_throws_only_McpError_witness :
  exists w',
    CallToolRequest (fun _ => "Not Found") (fun _ => "TypeError")
      (list_tool (fun b => String.eqb b "null")
         (Scenario.env_of (Some Scenario.A1) Cases.api_500) 3 list_segments)
      (Some (Scenario.args_limit None)) (init 0)
    = Some (Resolved (ErrorContent "Mautic API Error: Not Found"), w')
    /\ length (api_sends (trace w')) = 1%nat.
Proof.
  destruct (proj2 (proj2 (tool_call_throws_only_McpError
              (Scenario.env_of (Some Scenario.A1) Cases.api_500) 2
              (fun _ => "Not Found") (fun _ => "TypeError")
              (fun b => String.eqb b "null") list_segments
              (Some (Scenario.args_limit None)) (init 0))))
    as (_ & u & p & Hsend); [by left|].
  destruct (Hsend tt _ eq_refl) as (_ & H500 & _).
  eexists. split; [apply (H500 500 ""); [reflexivity | lia | lia]|].
  reflexivity.
Defined.

(** ** [getContact] *)

Lemma details_sends (env : Env) (fuel : nat) (data_is_null : string -> bool)
    (u : string) (w : World) r w' :
  GetContact.details env fuel data_is_null u w = Some (r, w') ->
  (forall em, r <> Resolved (GetContact.NotFound em))
  /\ exists cs,
      api_sends (trace w') = api_sends (trace w) ++ cs
      /\ Forall (fun c => method c = GET /\ url c = u /\ params c = ∅) cs.
Proof.
  unfold GetContact.details, axiosInstance_get.
  destruct (axiosInstance_request env fuel _ w) as [[[resp|e] w1]|] eqn:E;
    [destruct (data_is_null (body resp))| |discriminate];
    intros [= <- <-]; (split; [done|]);
    destruct (axiosInstance_request_sends _ _ _ _ _ _ E) as (cs & Hcs & Hall & _);
    exists cs; (split; [done|]);
    (eapply Forall_impl; [exact Hall|]);
    by intros c ((? & ? & ? & _) & _).
Qed.

(** The detail request, once a token is established and the answer is
    2xx with a body. *)
Lemma details_resolves (env : Env) (fuel : nat)
    (data_is_null : string -> bool) (u : string) (w : World) u0 w1 s b :
  ensureValidToken env w = (Resolved u0, w1) ->
  api env (length (trace w1))
      (set_Authorization (bearer (this_access_token w1))
         {| method := GET; url := u; params := ∅; data := None;
            Authorization := None |}) = Reply s b ->
  validateStatus s = true ->
  data_is_null b = false ->
  GetContact.details env (S fuel) data_is_null u w
  = Some (Resolved (GetContact.Details {| status := s; body := b |}),
          network env
            (ApiSend (set_Authorization (bearer (this_access_token w1))
                        {| method := GET; url := u; params := ∅; data := None;
                           Authorization := None |})) w1).
Proof.
  intros He Ha V N. unfold GetContact.details, axiosInstance_get.
  rewrite (axiosInstance_request_resolves _ _ _ _ _ _ _ _ He Ha V). simpl.
  by rewrite N.
Qed.

(** X15: [getContact] with neither an [id] nor an [email] (an [id] of 0
    and an empty [email] count as missing) throws [InvalidParams] before
    any network traffic. With a non-zero [id] it ignores [email] and asks
    for [GET /contacts/<id>]: once a token is established and the answer
    is 2xx with a body, that one request gives the contact. Otherwise,
    with a non-empty [email], it first searches [GET /contacts] with
    [search = email:<email>] and [limit = 1]; a search that reports a
    total of zero gives the not-found answer after this one request, and
    any other search result is followed by [GET /contacts/<first key>],
    whose 2xx answer gives the contact. In every call that settles, the
    requests sent are these and no others. *)
Theorem getContact_lookup (env : Env) (fuel : nat)
    (data_is_null total_is_zero : string -> bool)
    (contact_keys : string -> option (list string))
    (a : GetContact.Args) (w : World) :
  (Js.truthy_num (GetContact.id a) = false ->
   Js.truthy (GetContact.email a) = false ->
   GetContact.getContact env fuel data_is_null total_is_zero contact_keys
     (Some a) w
   = Some (Rejected (McpError InvalidParams
                       "Either id or email must be provided"), w))
  /\ (forall n u0 w1 s b,
        GetContact.id a = Some n -> n <> 0 ->
        ensureValidToken env w = (Resolved u0, w1) ->
        let c := set_Authorization (bearer (this_access_token w1))
                   {| method := GET; url := "/contacts/" +:+ pretty n;
                      params := ∅; data := None; Authorization := None |} in
        api env (length (trace w1)) c = Reply s b ->
        validateStatus s = true -> data_is_null b = false ->
        GetContact.getContact env (S fuel) data_is_null total_is_zero
          contact_keys (Some a) w
        = Some (Resolved (GetContact.Details {| status := s; body := b |}),
                network env (ApiSend c) w1))
  /\ (forall em u0 w1 s b,
        Js.truthy_num (GetContact.id a) = false ->
        Js.usable (GetContact.email a) = Some em ->
        ensureValidToken env w = (Resolved u0, w1) ->
        let c := set_Authorization (bearer (this_access_token w1))
                   {| method := GET; url := "/contacts";
                      params := <["limit" := VNum 1]>
                                  (<["search" := VStr ("email:" +:+ em)]> ∅);
                      data := None; Authorization := None |} in
        api env (length (trace w1)) c = Reply s b ->
        validateStatus s = true -> data_is_null b = false ->
        (total_is_zero b = true ->
         GetContact.getContact env (S fuel) data_is_null total_is_zero
           contact_keys (Some a) w
         = Some (Resolved (GetContact.NotFound em), network env (ApiSend c) w1))
        /\ (forall keys u2 w3 s2 b2,
              total_is_zero b = false ->
              contact_keys b = Some keys ->
              ensureValidToken env (network env (ApiSend c) w1)
              = (Resolved u2, w3) ->
              let c2 := set_Authorization (bearer (this_access_token w3))
                          {| method := GET;
                             url := "/contacts/" +:+ Js.interp (head keys);
                             params := ∅; data := None;
                             Authorization := None |} in
              api env (length (trace w3)) c2 = Reply s2 b2 ->
              validateStatus s2 = true -> data_is_null b2 = false ->
              GetContact.getContact env (S fuel) data_is_null total_is_zero
                contact_keys (Some a) w
              = Some (Resolved
                        (GetContact.Details {| status := s2; body := b2 |}),
                      network env (ApiSend c2) w3)))
  /\ (forall r w',
        GetContact.getContact env fuel data_is_null total_is_zero
          contact_keys (Some a) w = Some (r, w') ->
        exists cs1 cs2,
          api_sends (trace w') = api_sends (trace w) ++ cs1 ++ cs2
          /\ Forall (fun c => method c = GET /\ params c = ∅
                              /\ exists key, url c = "/contacts/" +:+ key) cs2
          /\ (forall n, GetContact.id a = Some n -> n <> 0 ->
                        cs1 = []
                        /\ Forall (fun c => url c = "/contacts/" +:+ pretty n)
                                  cs2)
          /\ (forall em, Js.truthy_num (GetContact.id a) = false ->
                         Js.usable (GetContact.email a) = Some em ->
                         Forall (fun c =>
                                   method c = GET /\ url c = "/contacts"
                                   /\ params c
                                      = <["limit" := VNum 1]>
                                          (<["search" :=
                                               VStr ("email:" +:+ em)]> ∅))
                                cs1)
          /\ (forall em, r = Resolved (GetContact.NotFound em) -> cs2 = [])).
Proof.
  split; [|split; [|split]].
  - intros Hid Hem. unfold GetContact.getContact. rewrite Hid.
    by rewrite (proj2 (usable_None _) Hem).
  - intros n u0 w1 s b Hid Hn He c Ha V N.
    unfold GetContact.getContact. rewrite Hid. simpl.
    destruct (Z.eqb_spec n 0); [contradiction|]. simpl.
    by apply (details_resolves _ _ _ _ _ u0).
  - intros em u0 w1 s b Hid Hem He c Ha V N.
    unfold GetContact.getContact. rewrite Hid, Hem.
    unfold axiosInstance_get.
    rewrite (axiosInstance_request_resolves _ _ _ _ _ _ _ _ He Ha V).
    simpl. rewrite N. split.
    + by intros ->.
    + intros keys u2 w3 s2 b2 Hz Hk He2 Ha2 V2 N2. rewrite Hz, Hk.
      by apply (details_resolves _ _ _ _ _ u2).
  - unfold GetContact.getContact. intros r w' H.
    destruct (Js.truthy_num (GetContact.id a)) eqn:Hid.
    + destruct (details_sends _ _ _ _ _ _ _ H) as (Hnf & cs & Hcs & Hall).
      exists [], cs. split; [done|]. split; [|split; [|split]].
      * eapply Forall_impl; [exact Hall|]. intros c (? & ? & ?). eauto.
      * intros n Hn _. split; [done|]. rewrite Hn in Hall.
        eapply Forall_impl; [exact Hall|]. by intros c (_ & ? & _).
      * intros em Hf. discriminate.
      * intros em ->. by destruct (Hnf em).
    + assert (forall n, GetContact.id a = Some n -> n <> 0 -> False) as Hno.
      { intros n Hn Hz. rewrite Hn in Hid. simpl in Hid.
        by destruct (Z.eqb_spec n 0). }
      destruct (Js.usable (GetContact.email a)) as [em|] eqn:Hem.
      * unfold axiosInstance_get in H.
        destruct (axiosInstance_request env fuel _ w) as [[[sr|e] w1]|] eqn:E;
          [| |discriminate].
        -- destruct (axiosInstance_request_sends _ _ _ _ _ _ E)
             as (cs1 & Hcs1 & Hall1 & _).
           assert (Forall (fun c =>
                             method c = GET /\ url c = "/contacts"
                             /\ params c
                                = <["limit" := VNum 1]>
                                    (<["search" := VStr ("email:" +:+ em)]> ∅))
                          cs1) as Hsearch.
           { eapply Forall_impl; [exact Hall1|].
             by intros c ((? & ? & ? & _) & _). }
           destruct (data_is_null (body sr)).
           { injection H as <- <-. exists cs1, []. rewrite app_nil_r.
             split; [done|]. split; [constructor|].
             split; [intros n Hn Hz; by destruct (Hno n)|].
             split; [by intros em0 _ [= <-] | done]. }
           destruct (total_is_zero (body sr)).
           ++ injection H as <- <-. exists cs1, []. rewrite app_nil_r.
              split; [done|]. split; [constructor|].
              split; [intros n Hn Hz; by destruct (Hno n)|].
              split; [by intros em0 _ [= <-] | done].
           ++ destruct (contact_keys (body sr)) as [keys|]; cycle 1.
              { injection H as <- <-. exists cs1, []. rewrite app_nil_r.
                split; [done|]. split; [constructor|].
                split; [intros n Hn Hz; by destruct (Hno n)|].
                split; [by intros em0 _ [= <-] | done]. }
              destruct (details_sends _ _ _ _ _ _ _ H)
                as (Hnf & cs2 & Hcs2 & Hall2).
              exists cs1, cs2. rewrite Hcs2, Hcs1, <- app_assoc.
              split; [done|]. split.
              { eapply Forall_impl; [exact Hall2|].
                intros c (? & ? & ?). eauto. }
              split; [intros n Hn Hz; by destruct (Hno n)|].
              split; [by intros em0 _ [= <-]|].
              intros em0 ->. by destruct (Hnf em0).
        -- injection H as <- <-.
           destruct (axiosInstance_request_sends _ _ _ _ _ _ E)
             as (cs1 & Hcs1 & Hall1 & _).
           exists cs1, []. rewrite app_nil_r. split; [done|].
           split; [constructor|].
           split; [intros n Hn Hz; by destruct (Hno n)|].
           split; [|done]. intros em0 _ [= <-].
           eapply Forall_impl; [exact Hall1|].
           by intros c ((? & ? & ? & _) & _).
      * injection H as <- <-. exists [], []. simpl. rewrite app_nil_r.
        split; [done|]. split; [constructor|].
        split; [intros n Hn Hz; by destruct (Hno n)|].
        split; [intros em0 _ Hf; discriminate | done].
Qed.

Lemma getContact_lookup_witness :
  exists w',
    GetContact.getContact
      (Scenario.env_of (Some Scenario.A1) Cases.api_contacts) 3
      (fun b => String.eqb b "null") (fun _ => false) (fun _ => Some ["17"])
      (Some Cases.by_email) (init 0)
    = Some (Resolved (GetContact.Details {| status := 200; body := "contact" |}),
            w')
    /\ url <$> api_sends (trace w') = ["/contacts"; "/contacts/17"].
Proof.
  destruct (getContact_lookup
              (Scenario.env_of (Some Scenario.A1) Cases.api_contacts) 2
              (fun b => String.eqb b "null") (fun _ => false)
              (fun _ => Some ["17"]) Cases.by_email (init 0))
    as (_ & _ & Hem & _).
  destruct (Hem "a@b.c" tt
              (ensureValidToken
                 (Scenario.env_of (Some Scenario.A1) Cases.api_contacts)
                 (init 0)).2
              200 "search" eq_refl eq_refl eq_refl eq_refl eq_refl eq_refl)
    as (_ & Hfound).
  eexists. split.
  - eapply (Hfound ["17"] tt _ 200 "contact"); reflexivity.
  - reflexivity.
Defined.

(** ** Request bodies built by the later version *)

Lemma set_opt_other (k j : string) v (p : gmap string Later.Json) :
  k <> j -> Later.set_opt k v p !! j = p !! j.
Proof.
  intros H. unfold Later.set_opt. destruct v; [|done].
  by rewrite lookup_insert_ne.
Qed.

Lemma set_nonempty_other {A} (k j : string) (f : list A -> list Later.Json)
    v (p : gmap string Later.Json) :
  k <> j -> Later.set_nonempty k f v p !! j = p !! j.
Proof.
  intros H. unfold Later.set_nonempty. destruct v as [[|x l]|]; try done.
  by rewrite lookup_insert_ne.
Qed.

Lemma set_nonempty_lookup {A} (k : string) (f : list A -> list Later.Json)
    v (p : gmap string Later.Json) :
  p !! k = None ->
  Later.set_nonempty k f v p !! k
  = match v with
    | Some (x :: l) => Some (Later.JArr (f (x :: l)))
    | Some [] | None => None
    end.
Proof.
  intros H. unfold Later.set_nonempty. destruct v as [[|x l]|]; try done.
  by rewrite lookup_insert_eq.
Qed.

Local Ltac payload_lookup :=
  repeat first
    [ rewrite lookup_insert_ne by discriminate
    | rewrite set_opt_other by discriminate
    | rewrite set_nonempty_other by discriminate ].

(** What a posting handler sends. *)
Lemma axiosInstance_post_sends (env : Env) (fuel : nat)
    (stringify : gmap string Later.Json -> string) (u : string)
    (payload : gmap string Later.Json) (w : World) r w' :
  Later.axiosInstance_post env fuel stringify u payload w = Some (r, w') ->
  exists cs,
    api_sends (trace w') = api_sends (trace w) ++ cs
    /\ Forall (fun c => method c = POST /\ url c = u /\ params c = ∅
                        /\ data c = Some (stringify payload)) cs
    /\ (forall u0 w1, ensureValidToken env w = (Resolved u0, w1) -> cs <> []).
Proof.
  unfold Later.axiosInstance_post. intros H.
  destruct (axiosInstance_request_sends _ _ _ _ _ _ H) as (cs & Hcs & Hall & Hne).
  exists cs. split; [done|]. split; [|done].
  eapply Forall_impl; [exact Hall|]. by intros c ((? & ? & ? & ?) & _).
Qed.

(** A posting handler as a whole, for a call that settles. *)
Lemma formatted_post_sends (env : Env) (fuel : nat)
    (data_is_null : string -> bool)
    (stringify : gmap string Later.Json -> string) (u : string)
    (payload : gmap string Later.Json) (w : World) r w' :
  formatted data_is_null
    (Later.axiosInstance_post env fuel stringify u payload w) = Some (r, w') ->
  exists cs,
    api_sends (trace w') = api_sends (trace w) ++ cs
    /\ Forall (fun c => method c = POST /\ url c = u
                        /\ data c = Some (stringify payload)) cs
    /\ (forall u0 w1, ensureValidToken env w = (Resolved u0, w1) -> cs <> []).
Proof.
  unfold formatted.
  destruct (Later.axiosInstance_post env fuel stringify u payload w)
    as [[[resp|e] w1]|] eqn:E;
    [destruct (data_is_null (body resp))| |discriminate];
    intros [= <- <-];
    destruct (axiosInstance_post_sends _ _ _ _ _ _ _ _ E)
      as (cs & Hcs & Hall & Hne);
    exists cs; (split; [done|]); (split; [|done]);
    (eapply Forall_impl; [exact Hall|]); by intros c (? & ? & _ & ?).
Qed.

(** A posting handler as a whole, once a token is established and the
    answer is 2xx with a body. *)
Lemma formatted_post_resolves (env : Env) (fuel : nat)
    (data_is_null : string -> bool)
    (stringify : gmap string Later.Json -> string) (u : string)
    (payload : gmap string Later.Json) (w : World) u0 w1 s b :
  ensureValidToken env w = (Resolved u0, w1) ->
  api env (length (trace w1))
      (set_Authorization (bearer (this_access_token w1))
         {| method := POST; url := u; params := ∅;
            data := Some (stringify payload); Authorization := None |})
  = Reply s b ->
  validateStatus s = true ->
  data_is_null b = false ->
  formatted data_is_null
    (Later.axiosInstance_post env (S fuel) stringify u payload w)
  = Some (Resolved {| status := s; body := b |},
          network env
            (ApiSend (set_Authorization (bearer (this_access_token w1))
                        {| method := POST; url := u; params := ∅;
                           data := Some (stringify payload);
                           Authorization := None |})) w1).
Proof.
  intros He Ha V N. unfold Later.axiosInstance_post.
  rewrite (axiosInstance_request_resolves _ _ _ _ _ _ _ _ He Ha V).
  unfold formatted. simpl. by rewrite N.
Qed.

(** The keys of the campaign payload. *)
Lemma campaign_payload_keys (a : Later.CampaignArgs) :
  (forall x l,
      Later.segments a = Some (x :: l) ->
      exists ids,
        Later.campaign_payload a !! "lists" = Some (Later.JArr ids)
        /\ length ids = S (length l)
        /\ forall i s, (x :: l) !! i = Some s ->
                       ids !! i = Some (Later.JObj [("id", Later.JNum s)]))
  /\ (Later.segments a = Some [] \/ Later.segments a = None ->
      Later.campaign_payload a !! "lists" = None)
  /\ Later.campaign_payload a !! "segments" = None
  /\ (Later.events a = Some [] \/ Later.events a = None ->
      Later.campaign_payload a !! "events" = None)
  /\ (forall b, Later.isPublished a = Some b ->
                Later.campaign_payload a !! "isPublished"
                = Some (Later.JBool b))
  /\ (Later.isPublished a = None ->
      Later.campaign_payload a !! "isPublished" = Some (Later.JBool true))
  /\ (Later.allowRestart a = None ->
      Later.campaign_payload a !! "allowRestart" = Some (Later.JBool false)).
Proof.
  assert (forall k : string,
             k <> "canvasSettings" ->
             Later.campaign_payload a !! k
             = Later.set_nonempty "forms" Later.id_objects (Later.forms a)
                 (Later.set_nonempty "lists" Later.id_objects
                    (Later.segments a)
                    (Later.set_nonempty "events" (fun l => l) (Later.events a)
                       (<["allowRestart" :=
                            Later.JBool (Js.truthy_bool (Later.allowRestart a))]>
                          (<["isPublished" :=
                               Later.JBool
                                 (Later.published (Later.isPublished a))]>
                             (<["description" :=
                                  Later.JStr
                                    (default ""
                                       (Js.usable (Later.description a)))]>
                                (Later.set_opt "name"
                                   (Later.JStr <$> Later.name a) ∅))))))
               !! k) as Hk.
  { intros k Hne. unfold Later.campaign_payload.
    destruct (Later.canvasSettings a) as [j|]; [|done].
    destruct (Later.json_truthy j); [|done]. by rewrite lookup_insert_ne. }
  repeat split.
  - intros x l Hs. rewrite Hk by discriminate. payload_lookup.
    rewrite set_nonempty_lookup by (payload_lookup; apply lookup_empty).
    rewrite Hs. eexists. split; [reflexivity|]. unfold Later.id_objects.
    split; [by rewrite length_fmap|].
    intros i s Hi. by rewrite list_lookup_fmap, Hi.
  - intros Hs. rewrite Hk by discriminate. payload_lookup.
    rewrite set_nonempty_lookup by (payload_lookup; apply lookup_empty).
    by destruct Hs as [-> | ->].
  - rewrite Hk by discriminate. payload_lookup. apply lookup_empty.
  - intros He. rewrite Hk by discriminate. payload_lookup.
    rewrite set_nonempty_lookup by (payload_lookup; apply lookup_empty).
    by destruct He as [-> | ->].
  - intros b Hb. rewrite Hk by discriminate. payload_lookup.
    rewrite lookup_insert_eq. by rewrite Hb.
  - intros Hb. rewrite Hk by discriminate. payload_lookup.
    rewrite lookup_insert_eq. by rewrite Hb.
  - intros Hb. rewrite Hk by discriminate. payload_lookup.
    rewrite lookup_insert_eq. by rewrite Hb.
Qed.

(** The key under which the asset payload carries [file]. *)
Lemma asset_payload_keys (a : Later.AssetArgs) (f : string) :
  Later.file a = Some f ->
  (Later.storageLocation a = Some "local" ->
   Later.asset_payload a !! "tempName" = Some (Later.JStr f)
   /\ Later.asset_payload a !! "remotePath" = None)
  /\ (Later.storageLocation a <> Some "local" ->
      Later.asset_payload a !! "remotePath" = Some (Later.JStr f)
      /\ Later.asset_payload a !! "tempName" = None).
Proof.
  intros Hf.
  assert (forall (k : string) (p : gmap string Later.Json),
             k <> "category" ->
             (match Later.category a with
              | Some n => if Js.truthy_num (Later.category a)
                          then <["category" := Later.JNum n]> p else p
              | None => p
              end : gmap string Later.Json) !! k = p !! k) as Hk.
  { intros k p Hne. destruct (Later.category a) as [n|]; [|done].
    destruct (Js.truthy_num (Some n)); [|done]. by rewrite lookup_insert_ne. }
  unfold Later.asset_payload. split.
  - intros Hs. rewrite !Hk by discriminate.
    rewrite bool_decide_eq_true_2 by done. rewrite Hf. simpl.
    split; [by rewrite lookup_insert_eq|].
    payload_lookup. apply lookup_empty.
  - intros Hs. rewrite !Hk by discriminate.
    rewrite bool_decide_eq_false_2 by done. rewrite Hf. simpl.
    split; [by rewrite lookup_insert_eq|].
    payload_lookup. apply lookup_empty.
Qed.

(** X16: [createCampaignWithAutomation] posts its payload to
    [/campaigns/new]: once a token is established the POST goes on the
    wire with the payload as its body, and a 2xx answer with a body
    settles the call after this one request; every request of a call that
    settles is this POST. The segment ids arrive as [lists], one [{id}]
    object per id in the caller's order, and never under [segments]; empty
    or missing [segments] and [events] are left out. An explicit
    [isPublished: false] is sent as [false], a missing one as [true]; a
    missing [allowRestart] as [false]. *)
Theorem campaign_payload_on_the_wire (env : Env) (fuel : nat)
    (data_is_null : string -> bool)
    (stringify : gmap string Later.Json -> string)
    (a : Later.CampaignArgs) (w : World) :
  (forall u0 w1 s b,
      ensureValidToken env w = (Resolved u0, w1) ->
      let c := set_Authorization (bearer (this_access_token w1))
                 {| method := POST; url := "/campaigns/new"; params := ∅;
                    data := Some (stringify (Later.campaign_payload a));
                    Authorization := None |} in
      api env (length (trace w1)) c = Reply s b ->
      validateStatus s = true -> data_is_null b = false ->
      Later.createCampaignWithAutomation env (S fuel) stringify data_is_null
        (Some a) w
      = Some (Resolved {| status := s; body := b |},
              network env (ApiSend c) w1))
  /\ (forall r w',
        Later.createCampaignWithAutomation env fuel stringify data_is_null
          (Some a) w = Some (r, w') ->
        exists cs,
          api_sends (trace w') = api_sends (trace w) ++ cs
          /\ Forall (fun c => method c = POST /\ url c = "/campaigns/new"
                              /\ data c
                                 = Some (stringify (Later.campaign_payload a)))
                    cs
          /\ (forall u0 w1,
                ensureValidToken env w = (Resolved u0, w1) -> cs <> []))
  /\ (forall x l,
        Later.segments a = Some (x :: l) ->
        exists ids,
          Later.campaign_payload a !! "lists" = Some (Later.JArr ids)
          /\ length ids = S (length l)
          /\ forall i s, (x :: l) !! i = Some s ->
                         ids !! i = Some (Later.JObj [("id", Later.JNum s)]))
  /\ (Later.segments a = Some [] \/ Later.segments a = None ->
      Later.campaign_payload a !! "lists" = None)
  /\ Later.campaign_payload a !! "segments" = None
  /\ (Later.events a = Some [] \/ Later.events a = None ->
      Later.campaign_payload a !! "events" = None)
  /\ (forall b, Later.isPublished a = Some b ->
                Later.campaign_payload a !! "isPublished"
                = Some (Later.JBool b))
  /\ (Later.isPublished a = None ->
      Later.campaign_payload a !! "isPublished" = Some (Later.JBool true))
  /\ (Later.allowRestart a = None ->
      Later.campaign_payload a !! "allowRestart" = Some (Later.JBool false)).
Proof.
  split; [|split; [|apply campaign_payload_keys]].
  - intros u0 w1 s b He c Ha V N. unfold Later.createCampaignWithAutomation.
    by apply (formatted_post_resolves _ _ _ _ _ _ _ u0).
  - intros r w' H. by apply (formatted_post_sends _ _ _ _ _ _ _ _ _ H).
Qed.

Lemma campaign_payload_on_the_wire_witness :
  exists w' c,
    Later.createCampaignWithAutomation
      (Scenario.env_of (Some Scenario.A1) Scenario.api_ok) 3 Cases.show
      (fun b => String.eqb b "null") (Some Cases.campaign) (init 0)
    = Some (Resolved {| status := 200; body := "{}" |}, w')
    /\ api_sends (trace w') = [c]
    /\ method c = POST
    /\ url c = "/campaigns/new"
    /\ data c = Some "lists:3,8"
    /\ Later.campaign_payload Cases.campaign !! "events" = None
    /\ Later.campaign_payload Cases.campaign !! "isPublished"
       = Some (Later.JBool false).
Proof.
  destruct (campaign_payload_on_the_wire
              (Scenario.env_of (Some Scenario.A1) Scenario.api_ok) 2
              (fun b => String.eqb b "null") Cases.show Cases.campaign
              (init 0))
    as (Hsend & _ & _ & _ & _ & He & Hp & _).
  eexists _, _. split.
  - apply (Hsend tt
             (ensureValidToken
                (Scenario.env_of (Some Scenario.A1) Scenario.api_ok)
                (init 0)).2 200 "{}"); reflexivity.
  - do 4 (split; [reflexivity|]). split; [apply He; by left | by apply Hp].
Defined.

(** X17: [createAsset] posts its payload to [/assets/new]: once a token
    is established the POST goes on the wire with the payload as its
    body, and a 2xx answer with a body settles the call after this one
    request; every request of a call that settles is this POST. The
    payload carries [file] under exactly one key: [tempName] when
    [storageLocation] is exactly ["local"], and [remotePath] for anything
    else, a missing [storageLocation] included. *)
Theorem asset_file_goes_to_one_key (env : Env) (fuel : nat)
    (data_is_null : string -> bool)
    (stringify : gmap string Later.Json -> string)
    (a : Later.AssetArgs) (w : World) :
  (forall u0 w1 s b,
      ensureValidToken env w = (Resolved u0, w1) ->
      let c := set_Authorization (bearer (this_access_token w1))
                 {| method := POST; url := "/assets/new"; params := ∅;
                    data := Some (stringify (Later.asset_payload a));
                    Authorization := None |} in
      api env (length (trace w1)) c = Reply s b ->
      validateStatus s = true -> data_is_null b = false ->
      Later.createAsset env (S fuel) stringify data_is_null (Some a) w
      = Some (Resolved {| status := s; body := b |},
              network env (ApiSend c) w1))
  /\ (forall r w',
        Later.createAsset env fuel stringify data_is_null (Some a) w
        = Some (r, w') ->
        exists cs,
          api_sends (trace w') = api_sends (trace w) ++ cs
          /\ Forall (fun c => method c = POST /\ url c = "/assets/new"
                              /\ data c
                                 = Some (stringify (Later.asset_payload a))) cs
          /\ (forall u0 w1,
                ensureValidToken env w = (Resolved u0, w1) -> cs <> []))
  /\ (forall f,
        Later.file a = Some f ->
        (Later.storageLocation a = Some "local" ->
         Later.asset_payload a !! "tempName" = Some (Later.JStr f)
         /\ Later.asset_payload a !! "remotePath" = None)
        /\ (Later.storageLocation a <> Some "local" ->
            Later.asset_payload a !! "remotePath" = Some (Later.JStr f)
            /\ Later.asset_payload a !! "tempName" = None)).
Proof.
  split; [|split; [|apply asset_payload_keys]].
  - intros u0 w1 s b He c Ha V N. unfold Later.createAsset.
    by apply (formatted_post_resolves _ _ _ _ _ _ _ u0).
  - intros r w' H. by apply (formatted_post_sends _ _ _ _ _ _ _ _ _ H).
Qed.

Lemma asset_file_goes_to_one_key_witness :
  exists w' c,
    Later.createAsset
      (Scenario.env_of (Some Scenario.A1) Scenario.api_ok) 3 Cases.show
      (fun b => String.eqb b "null") (Some Cases.asset) (init 0)
    = Some (Resolved {| status := 200; body := "{}" |}, w')
    /\ api_sends (trace w') = [c]
    /\ method c = POST
    /\ url c = "/assets/new"
    /\ data c = Some "remotePath:https://example.org/logo.png"
    /\ Later.asset_payload Cases.asset !! "tempName" = None.
Proof.
  destruct (asset_file_goes_to_one_key
              (Scenario.env_of (Some Scenario.A1) Scenario.api_ok) 2
              (fun b => String.eqb b "null") Cases.show Cases.asset (init 0))
    as (Hsend & _ & Hf).
  eexists _, _. split.
  - apply (Hsend tt
             (ensureValidToken
                (Scenario.env_of (Some Scenario.A1) Scenario.api_ok)
                (init 0)).2 200 "{}"); reflexivity.
  - do 4 (split; [reflexivity|]).
    apply (Hf "https://example.org/logo.png" eq_refl). discriminate.
Defined.
